(** * JSONPlaceholder demo client ([script.js]): a shallow embedding

    The script is one HTTP helper ([makeRequest]), eighteen endpoint
    wrappers and two sequential demo drivers.  It is embedded as follows.

    - [JS]: the JavaScript data the script handles (JSON values plus
      [undefined]) and the language primitives it applies to them: property
      reads, object spread, template-literal conversion, truthiness,
      [substring] and [JSON.stringify].
    - [Host]: [fetch], [response.json()] and the console, as a state and
      exception monad over a world that holds the outcomes the network will
      deliver and the trace of calls made so far.  An [await] returns,
      throws, or never resumes.
    - [Script]: the functions of [script.js], in source order.

    Data model.  Numbers are integers ([Z]): the script handles identifiers,
    status codes and lengths.  [VNum n] stands for the number the literal
    [n] denotes, and is printed as JavaScript prints that number: all its
    digits up to [2^53], the shortest digits of the nearest double beyond.
    The one expression in floating point, the completion rate of
    [runFullDemo], is a parameter of that driver.  Strings are [string]s,
    one [ascii] per code unit.  An object
    is the list of its own properties in enumeration order.  Property reads
    see own properties and [length]; none of the names the script reads is
    defined on a built-in prototype, and data holds no functions. *)

From Stdlib Require Import ZArith NArith List String Ascii DecimalString Bool Lia.
Import ListNotations.
Open Scope string_scope.

(* ================================================================== *)
(** * JavaScript values *)
(* ================================================================== *)

Module JS.

#[warnings="-register-all"] Inductive value : Type :=
| VUndef
| VNull
| VBool (b : bool)
| VNum (n : Z)
| VStr (s : string)
| VArr (elems : list value)
| VObj (props : list (string * value)).

(** ** Numbers

    [VNum n] is the number the integer literal [n] denotes: [n] itself up
    to [2^53], beyond it the nearest double (ties to even), or an infinity.
    [Number::toString] prints the shortest digits that read back as the
    same double, in exponent form from [10^21] on. *)

(** All the digits of an integer. *)
Definition digits (a : Z) : string := NilZero.string_of_int (Z.to_int a).

(** The double nearest to [a >= 0]; [None] when that is [Infinity]. *)
Definition nearest_double (a : Z) : option Z :=
  if (a <? 2 ^ 53)%Z then Some a
  else
    let shift := (Z.log2 a - 52)%Z in
    let q := Z.shiftr a shift in
    let rest := (a - Z.shiftl q shift)%Z in
    let half := Z.shiftl 1 (shift - 1) in
    let q' :=
      if (half <? rest)%Z || ((rest =? half)%Z && Z.odd q) then (q + 1)%Z
      else q in
    let d := Z.shiftl q' shift in
    if (d <? 2 ^ 1024)%Z then Some d else None.

Definition finite (n : Z) : bool :=
  match nearest_double (Z.abs n) with
  | Some _ => true
  | None => false
  end.

(** The pairs [(s, e)] with [s] of [k] digits such that [s * 10^e] is
    nearest to the double [d] of [p] digits and reads back as [d]. *)
Definition candidates (d p k : Z) : list (Z * Z) :=
  flat_map
    (fun e =>
       if (e <? 0)%Z then []
       else
         filter
           (fun se =>
              (10 ^ (k - 1) <=? fst se)%Z && (fst se <? 10 ^ k)%Z
              && match nearest_double (fst se * 10 ^ e) with
                 | Some d' => (d' =? d)%Z
                 | None => false
                 end)
           [((d / 10 ^ e)%Z, e); ((d / 10 ^ e + 1)%Z, e)])
    [(p - k)%Z; (p - k + 1)%Z].

(** Of two candidates the one nearer to [d], the even one on a tie. *)
Definition closer (d : Z) (x y : Z * Z) : Z * Z :=
  let dx := Z.abs (fst x * 10 ^ snd x - d) in
  let dy := Z.abs (fst y * 10 ^ snd y - d) in
  if (dy <? dx)%Z then y
  else if (dy =? dx)%Z && Z.odd (fst x) then y
  else x.

(** The shortest digits [s] and exponent [e] with [s * 10^e] reading back
    as the double [d]; seventeen digits always suffice. *)
Definition shortest (d : Z) : Z * Z :=
  let p := Z.of_nat (String.length (digits d)) in
  let fix go (ks : list Z) : Z * Z :=
    match ks with
    | [] => (d, 0%Z)
    | k :: ks' =>
        match candidates d p k with
        | [] => go ks'
        | c :: cs => fold_left (closer d) cs c
        end
    end in
  go (map Z.of_nat (seq 1 17)).

Fixpoint zeros (n : nat) : string :=
  match n with
  | O => EmptyString
  | S n' => String "0" (zeros n')
  end.

(** [s * 10^e] written out: plain up to twenty-one digits, then as
    [d.ddde+x]. *)
Definition render (s e : Z) : string :=
  let ds := digits s in
  let n := (Z.of_nat (String.length ds) + e)%Z in
  if (n <=? 21)%Z then ds ++ zeros (Z.to_nat e)
  else
    match ds with
    | EmptyString => EmptyString
    | String c EmptyString => String c ("e+" ++ digits (n - 1))
    | String c rest => String c ("." ++ rest ++ "e+" ++ digits (n - 1))
    end.

(** [Number::toString] of the number [n] denotes. *)
Definition string_of_Z (n : Z) : string :=
  if (Z.abs n <=? 9007199254740992)%Z then digits n
  else
    (if (n <? 0)%Z then "-" else EmptyString)
    ++ match nearest_double (Z.abs n) with
       | Some d => let se := shortest d in render (fst se) (snd se)
       | None => "Infinity"
       end.

(** Decimal rendering of an array index. *)
Definition string_of_N (n : N) : string := NilZero.string_of_uint (N.to_uint n).

(** A property key is an array index when it is the canonical decimal
    rendering of an integer below [2^32 - 1]; such keys are enumerated
    first, in ascending order. *)
Definition index_of_key (k : string) : option N :=
  match NilZero.uint_of_string k with
  | Some u =>
      let n := N.of_uint u in
      if (string_of_N n =? k) && (n <? 4294967295)%N then Some n else None
  | None => None
  end.

Fixpoint lookup (k : string) (ps : list (string * value)) : option value :=
  match ps with
  | [] => None
  | (k', v) :: ps' => if k' =? k then Some v else lookup k ps'
  end.

Fixpoint replace (k : string) (v : value) (ps : list (string * value))
  : list (string * value) :=
  match ps with
  | [] => []
  | (k', v') :: ps' =>
      if k' =? k then (k, v) :: ps' else (k', v') :: replace k v ps'
  end.

Fixpoint insert_index (n : N) (k : string) (v : value)
  (ps : list (string * value)) : list (string * value) :=
  match ps with
  | [] => [(k, v)]
  | (k', v') :: ps' =>
      match index_of_key k' with
      | Some m =>
          if (m <? n)%N then (k', v') :: insert_index n k v ps'
          else (k, v) :: ps
      | None => (k, v) :: ps
      end
  end.

(** Defining property [k] on an object: an existing property keeps its
    place and takes the new value; a new one goes among the array indices
    or, for any other name, last. *)
Definition define (k : string) (v : value) (ps : list (string * value))
  : list (string * value) :=
  match lookup k ps with
  | Some _ => replace k v ps
  | None =>
      match index_of_key k with
      | Some n => insert_index n k v ps
      | None => ps ++ [(k, v)]
      end
  end.

Definition indexed (xs : list value) : list (string * value) :=
  combine (map (fun i => string_of_N (N.of_nat i)) (seq 0 (List.length xs))) xs.

Definition chars (s : string) : list value :=
  map (fun c => VStr (String c EmptyString)) (list_ascii_of_string s).

(** Own enumerable properties, in enumeration order. *)
Definition own_props (v : value) : list (string * value) :=
  match v with
  | VObj ps => ps
  | VArr xs => indexed xs
  | VStr s => indexed (chars s)
  | VUndef | VNull | VBool _ | VNum _ => []
  end.

(** [{ ...target, ...source }]: the spread element of an object literal
    whose earlier properties are [target]. *)
Definition spread (target : list (string * value)) (source : value)
  : list (string * value) :=
  fold_left (fun acc kv => define (fst kv) (snd kv) acc) (own_props source) target.

(** Property read [v.k]; [None] is the [TypeError] raised on [undefined]
    and [null]. *)
Definition get (v : value) (k : string) : option value :=
  match v with
  | VUndef | VNull => None
  | VObj ps =>
      Some (match lookup k ps with Some x => x | None => VUndef end)
  | VArr xs =>
      Some (if k =? "length" then VNum (Z.of_nat (List.length xs))
            else match index_of_key k with
                 | Some i => nth (N.to_nat i) xs VUndef
                 | None => VUndef
                 end)
  | VStr s =>
      Some (if k =? "length" then VNum (Z.of_nat (String.length s))
            else match index_of_key k with
                 | Some i =>
                     match String.get (N.to_nat i) s with
                     | Some c => VStr (String c EmptyString)
                     | None => VUndef
                     end
                 | None => VUndef
                 end)
  | VBool _ | VNum _ => Some VUndef
  end.

(** [ToBoolean]. *)
Definition truthy (v : value) : bool :=
  match v with
  | VUndef | VNull => false
  | VBool b => b
  | VNum n => negb (n =? 0)%Z
  | VStr s => negb (s =? EmptyString)
  | VArr _ | VObj _ => true
  end.

(** [ToString], as a template literal applies it to [${v}]; [None] is the
    [TypeError] of an object that has no callable [toString] left: data
    holds no functions, so an own [toString] property hides the inherited
    one.  An array is converted by joining its elements. *)
Fixpoint ToString (v : value) : option string :=
  match v with
  | VUndef => Some "undefined"
  | VNull => Some "null"
  | VBool true => Some "true"
  | VBool false => Some "false"
  | VNum n => Some (string_of_Z n)
  | VStr s => Some s
  | VArr xs =>
      option_map (String.concat ",")
        (fold_right
           (fun x acc =>
              match (match x with
                     | VUndef | VNull => Some EmptyString
                     | _ => ToString x
                     end), acc with
              | Some s, Some l => Some (s :: l)
              | _, _ => None
              end)
           (Some []) xs)
  | VObj ps =>
      match lookup "toString" ps with
      | Some _ => None
      | None => Some "[object Object]"
      end
  end.

(** [String.prototype.repeat]. *)
Fixpoint repeat_string (s : string) (n : nat) : string :=
  match n with
  | O => EmptyString
  | S n' => s ++ repeat_string s n'
  end.

(** [v.substring(start, stop)] with [start <= stop]; [None] is the
    [TypeError] of a receiver that has no such method. *)
Definition substring (v : value) (start stop : nat) : option value :=
  match v with
  | VStr s => Some (VStr (String.substring start (stop - start) s))
  | _ => None
  end.

(** ** [JSON.stringify] *)

Definition dquote : ascii := "034"%char.
Definition backslash : ascii := "092"%char.

Definition hex_digit (n : nat) : ascii :=
  nth n (list_ascii_of_string "0123456789abcdef") "0"%char.

Definition escape_char (c : ascii) : string :=
  let n := nat_of_ascii c in
  if (n =? 8)%nat then String backslash "b"
  else if (n =? 9)%nat then String backslash "t"
  else if (n =? 10)%nat then String backslash "n"
  else if (n =? 12)%nat then String backslash "f"
  else if (n =? 13)%nat then String backslash "r"
  else if (n =? 34)%nat then String backslash (String dquote EmptyString)
  else if (n =? 92)%nat then String backslash (String backslash EmptyString)
  else if (n <? 32)%nat then
    String backslash
      ("u00" ++ String (hex_digit (n / 16)) (String (hex_digit (n mod 16)) EmptyString))
  else String c EmptyString.

Fixpoint escape (s : string) : string :=
  match s with
  | EmptyString => EmptyString
  | String c s' => escape_char c ++ escape s'
  end.

Definition quote (s : string) : string :=
  String dquote (escape s ++ String dquote EmptyString).

(** The serialisation, or [None] where [JSON.stringify] gives [undefined]. *)
Fixpoint stringify (v : value) : option string :=
  match v with
  | VUndef => None
  | VNull => Some "null"
  | VBool true => Some "true"
  | VBool false => Some "false"
  | VNum n => Some (if finite n then string_of_Z n else "null")
  | VStr s => Some (quote s)
  | VArr xs =>
      Some ("[" ++
            String.concat ","
              (map (fun x => match stringify x with
                             | Some t => t
                             | None => "null"
                             end) xs) ++ "]")
  | VObj ps =>
      Some ("{" ++
            String.concat ","
              (flat_map (fun kv => match stringify (snd kv) with
                                   | Some t => [quote (fst kv) ++ ":" ++ t]
                                   | None => []
                                   end) ps) ++ "}")
  end.

Definition JSON_stringify (v : value) : value :=
  match stringify v with
  | Some s => VStr s
  | None => VUndef
  end.

(** Keys of an object are pairwise distinct. *)
Fixpoint distinct_keys (ps : list (string * value)) : bool :=
  match ps with
  | [] => true
  | (k, _) :: ps' =>
      match lookup k ps' with
      | Some _ => false
      | None => distinct_keys ps'
      end
  end.

End JS.
Export JS.

(* ================================================================== *)
(** * The host: network, response bodies and console *)
(* ================================================================== *)

Module Host.

(** What a [throw] or a rejected promise carries. *)
Inductive exn : Type :=
| Error (message : string)              (* [new Error(message)] *)
| TypeError                             (* raised by the engine *)
| ReferenceError                        (* raised by the engine *)
| HostError (name message : string).    (* a rejection reason of the host *)

(** How reading a response body as JSON ends. *)
Inductive body_outcome : Type :=
| Parses (v : value)
| ParseFails (e : exn)
| BodyNeverSettles.

Record response : Type := { status : Z; body : body_outcome }.

(** [response.ok]: the status is in the range 200 to 299. *)
Definition ok (r : response) : bool :=
  ((200 <=? status r) && (status r <=? 299))%Z.

(** How the promise of one [fetch] call ends. *)
Inductive fetch_outcome : Type :=
| Responds (r : response)
| Rejects (e : exn)
| NeverSettles.

Inductive event : Type :=
| Fetch (url : string) (init : value)   (* [fetch(url, init)] was called *)
| ReadJson                              (* [response.json()] was called *)
| Log (message : string)                (* [console.log] *)
| LogError (label : string) (e : exn).  (* [console.error(label, e)] *)

(** The [Fetch] events of a trace, as (url, init) pairs. *)
Fixpoint requests (t : list event) : list (string * value) :=
  match t with
  | [] => []
  | Fetch url init :: t' => (url, init) :: requests t'
  | _ :: t' => requests t'
  end.

(** [trace w] lists every event so far, in order; [net w n] is how the
    [n]-th call of [fetch] will end, counting from 0. *)
Record world : Type := { net : nat -> fetch_outcome; trace : list event }.

(** The number of [fetch] calls made so far. *)
Definition sent (w : world) : nat := List.length (requests (trace w)).

(** The world once the events [evs] have happened. *)
Definition extend (w : world) (evs : list event) : world :=
  {| net := net w; trace := trace w ++ evs |}.

(** An awaited computation returns, throws, or never resumes. *)
Inductive outcome (A : Type) : Type :=
| Return (a : A)
| Throw (e : exn)
| Pending.
Arguments Return {A} a.
Arguments Throw {A} e.
Arguments Pending {A}.

Definition M (A : Type) : Type := world -> outcome A * world.

Definition ret {A} (a : A) : M A := fun w => (Return a, w).

Definition throw {A} (e : exn) : M A := fun w => (Throw e, w).

Definition bind {A B} (m : M A) (f : A -> M B) : M B :=
  fun w =>
    match m w with
    | (Return a, w') => f a w'
    | (Throw e, w') => (Throw e, w')
    | (Pending, w') => (Pending, w')
    end.

(** [try { m } catch (error) { handler error }]. *)
Definition try_catch {A} (m : M A) (handler : exn -> M A) : M A :=
  fun w =>
    match m w with
    | (Throw e, w') => handler e w'
    | r => r
    end.

Definition console_log (message : string) : M unit :=
  fun w => (Return tt, extend w [Log message]).

Definition console_error (label : string) (e : exn) : M unit :=
  fun w => (Return tt, extend w [LogError label e]).

(** [await fetch(url, init)]. *)
Definition fetch (url : string) (init : value) : M response :=
  fun w =>
    (match net w (sent w) with
     | Responds r => Return r
     | Rejects e => Throw e
     | NeverSettles => Pending
     end,
     extend w [Fetch url init]).

(** [await response.json()]. *)
Definition json (r : response) : M value :=
  fun w =>
    (match body r with
     | Parses v => Return v
     | ParseFails e => Throw e
     | BodyNeverSettles => Pending
     end,
     extend w [ReadJson]).

(** An operation of the language that raises [TypeError] where it is
    undefined. *)
Definition or_TypeError {A} (o : option A) : M A :=
  match o with
  | Some a => ret a
  | None => throw TypeError
  end.

(** [v.k] *)
Definition prop (v : value) (k : string) : M value := or_TypeError (get v k).

(** [${v}] *)
Definition str (v : value) : M string := or_TypeError (ToString v).

(** [v.filter(callback)]: defined on arrays; the callback's result is
    tested for truthiness, an exception in the callback ends the loop. *)
Fixpoint filter_elems (callback : value -> M value) (xs : list value)
  : M (list value) :=
  match xs with
  | [] => ret []
  | x :: xs' =>
      bind (callback x) (fun r =>
      bind (filter_elems callback xs') (fun ys =>
      ret (if truthy r then x :: ys else ys)))
  end.

Definition array_filter (v : value) (callback : value -> M value) : M value :=
  match v with
  | VArr xs => bind (filter_elems callback xs) (fun ys => ret (VArr ys))
  | _ => throw TypeError
  end.

(** The HTTP method of a request: [init.method], [GET] when absent. *)
Definition method_of (init : value) : value :=
  match get init "method" with
  | Some VUndef | None => VStr "GET"
  | Some m => m
  end.

End Host.
Export Host.

Declare Scope js_scope.
Delimit Scope js_scope with js.
Notation "x <- m ;; k" := (bind m (fun x => k))
  (at level 61, m at next level, right associativity) : js_scope.
Notation "m ;; k" := (bind m (fun _ => k))
  (at level 61, right associativity) : js_scope.
Open Scope js_scope.

(* ================================================================== *)
(** * The script *)
(* ================================================================== *)

Module Script.

Definition nl : string := String "010"%char EmptyString.
Definition dq : string := String dquote EmptyString.

Definition API_BASE_URL : string := "https://jsonplaceholder.typicode.com".

(** [makeRequest(url, options = {})] *)
Definition makeRequest (url : string) (options : value) : M value :=
  let options := match options with VUndef => VObj [] | _ => options end in
  try_catch
    (headers <- prop options "headers";;
     response <-
       fetch url
         (VObj (spread
                  [("headers",
                    VObj (spread [("Content-Type", VStr "application/json")]
                            headers))]
                  options));;
     if negb (ok response) then
       throw (Error ("HTTP error! status: " ++ string_of_Z (status response)))
     else if (status response =? 204)%Z then
       ret (VObj [("success", VBool true)])
     else json response)
    (fun error =>
       console_error "API Request failed:" error;;
       throw error).

(** ** Posts *)

Definition getAllPosts : M value :=
  console_log "📋 Fetching all posts...";;
  posts <- makeRequest (API_BASE_URL ++ "/posts") VUndef;;
  n <- prop posts "length";; n <- str n;;
  console_log ("✅ Retrieved " ++ n ++ " posts");;
  ret posts.

Definition getPost (id : value) : M value :=
  i <- str id;;
  console_log ("📄 Fetching post " ++ i ++ "...");;
  i <- str id;;
  post <- makeRequest (API_BASE_URL ++ "/posts/" ++ i) VUndef;;
  t <- prop post "title";; t <- str t;;
  console_log ("✅ Retrieved post: " ++ dq ++ t ++ dq);;
  ret post.

Definition getPostsByUser (userId : value) : M value :=
  u <- str userId;;
  console_log ("👤 Fetching posts by user " ++ u ++ "...");;
  u <- str userId;;
  posts <- makeRequest (API_BASE_URL ++ "/posts?userId=" ++ u) VUndef;;
  n <- prop posts "length";; n <- str n;;
  u <- str userId;;
  console_log ("✅ Found " ++ n ++ " posts by user " ++ u);;
  ret posts.

Definition createPost (postData : value) : M value :=
  console_log "📝 Creating new post...";;
  newPost <-
    makeRequest (API_BASE_URL ++ "/posts")
      (VObj [("method", VStr "POST"); ("body", JSON_stringify postData)]);;
  i <- prop newPost "id";; i <- str i;;
  console_log ("✅ Created post with ID: " ++ i);;
  ret newPost.

Definition updatePost (id postData : value) : M value :=
  i <- str id;;
  console_log ("📝 Updating post " ++ i ++ "...");;
  i <- str id;;
  updatedPost <-
    makeRequest (API_BASE_URL ++ "/posts/" ++ i)
      (VObj [("method", VStr "PUT");
             ("body", JSON_stringify (VObj (spread [("id", id)] postData)))]);;
  i <- str id;;
  console_log ("✅ Updated post " ++ i);;
  ret updatedPost.

Definition patchPost (id partialData : value) : M value :=
  i <- str id;;
  console_log ("✏️ Patching post " ++ i ++ "...");;
  i <- str id;;
  patchedPost <-
    makeRequest (API_BASE_URL ++ "/posts/" ++ i)
      (VObj [("method", VStr "PATCH"); ("body", JSON_stringify partialData)]);;
  i <- str id;;
  console_log ("✅ Patched post " ++ i);;
  ret patchedPost.

Definition deletePost (id : value) : M value :=
  i <- str id;;
  console_log ("🗑️ Deleting post " ++ i ++ "...");;
  i <- str id;;
  result <-
    makeRequest (API_BASE_URL ++ "/posts/" ++ i)
      (VObj [("method", VStr "DELETE")]);;
  i <- str id;;
  console_log ("✅ Deleted post " ++ i);;
  ret result.

(** ** Comments *)

Definition getAllComments : M value :=
  console_log "💬 Fetching all comments...";;
  comments <- makeRequest (API_BASE_URL ++ "/comments") VUndef;;
  n <- prop comments "length";; n <- str n;;
  console_log ("✅ Retrieved " ++ n ++ " comments");;
  ret comments.

Definition getCommentsForPost (postId : value) : M value :=
  p <- str postId;;
  console_log ("💬 Fetching comments for post " ++ p ++ "...");;
  p <- str postId;;
  comments1 <- makeRequest (API_BASE_URL ++ "/posts/" ++ p ++ "/comments") VUndef;;
  n <- prop comments1 "length";; n <- str n;;
  p <- str postId;;
  console_log ("✅ Found " ++ n ++ " comments for post " ++ p);;
  ret comments1.

(** ** Users *)

Definition getAllUsers : M value :=
  console_log "👥 Fetching all users...";;
  users <- makeRequest (API_BASE_URL ++ "/users") VUndef;;
  n <- prop users "length";; n <- str n;;
  console_log ("✅ Retrieved " ++ n ++ " users");;
  ret users.

Definition getUser (id : value) : M value :=
  i <- str id;;
  console_log ("👤 Fetching user " ++ i ++ "...");;
  i <- str id;;
  user <- makeRequest (API_BASE_URL ++ "/users/" ++ i) VUndef;;
  n <- prop user "name";; n <- str n;;
  e <- prop user "email";; e <- str e;;
  console_log ("✅ Retrieved user: " ++ n ++ " (" ++ e ++ ")");;
  ret user.

Definition getUserAlbums (userId : value) : M value :=
  u <- str userId;;
  console_log ("📸 Fetching albums for user " ++ u ++ "...");;
  u <- str userId;;
  albums <- makeRequest (API_BASE_URL ++ "/users/" ++ u ++ "/albums") VUndef;;
  n <- prop albums "length";; n <- str n;;
  u <- str userId;;
  console_log ("✅ Found " ++ n ++ " albums for user " ++ u);;
  ret albums.

Definition getUserTodos (userId : value) : M value :=
  u <- str userId;;
  console_log ("✅ Fetching todos for user " ++ u ++ "...");;
  u <- str userId;;
  todos <- makeRequest (API_BASE_URL ++ "/users/" ++ u ++ "/todos") VUndef;;
  n <- prop todos "length";; n <- str n;;
  u <- str userId;;
  console_log ("✅ Found " ++ n ++ " todos for user " ++ u);;
  ret todos.

(** ** Albums and photos *)

Definition getAllAlbums : M value :=
  console_log "📚 Fetching all albums...";;
  albums <- makeRequest (API_BASE_URL ++ "/albums") VUndef;;
  n <- prop albums "length";; n <- str n;;
  console_log ("✅ Retrieved " ++ n ++ " albums");;
  ret albums.

Definition getAlbumPhotos (albumId : value) : M value :=
  a <- str albumId;;
  console_log ("📸 Fetching photos from album " ++ a ++ "...");;
  a <- str albumId;;
  photos <- makeRequest (API_BASE_URL ++ "/albums/" ++ a ++ "/photos") VUndef;;
  n <- prop photos "length";; n <- str n;;
  a <- str albumId;;
  console_log ("✅ Found " ++ n ++ " photos in album " ++ a);;
  ret photos.

Definition getAllPhotos : M value :=
  console_log "🖼️ Fetching all photos...";;
  photos <- makeRequest (API_BASE_URL ++ "/photos") VUndef;;
  n <- prop photos "length";; n <- str n;;
  console_log ("✅ Retrieved " ++ n ++ " photos");;
  ret photos.

(** ** Todos *)

Definition getAllTodos : M value :=
  console_log "📝 Fetching all todos...";;
  todos <- makeRequest (API_BASE_URL ++ "/todos") VUndef;;
  n <- prop todos "length";; n <- str n;;
  console_log ("✅ Retrieved " ++ n ++ " todos");;
  ret todos.

Definition getCompletedTodos : M value :=
  console_log "✅ Fetching completed todos...";;
  todos <- makeRequest (API_BASE_URL ++ "/todos") VUndef;;
  completed <- array_filter todos (fun todo => prop todo "completed");;
  n <- prop completed "length";; n <- str n;;
  console_log ("✅ Found " ++ n ++ " completed todos");;
  ret completed.

(** ** Demo drivers *)

(** [x[0]?.k]: the read of [k] is skipped when [x[0]] is [undefined] or
    [null]. *)
Definition first_opt (x : value) (k : string) : M (option value) :=
  first <- prop x "0";;
  match first with
  | VUndef | VNull => ret None
  | _ => v <- prop first k;; ret (Some v)
  end.

Section FullDemo.

(** The text of [((c / t) * 100).toFixed(1)], or [None] where the
    conversion of an operand to a number raises [TypeError].  The division
    is IEEE-754 double arithmetic, which the embedding leaves to the host. *)
Variable completion_rate : value -> value -> option string.

(** The [try] block of [runFullDemo]. *)
Definition runFullDemo_try : M unit :=
  console_log "1️⃣ POSTS DEMO";;
  console_log (repeat_string "-" 20);;
  post1 <- getPost (VNum 1);;
  userPosts <- getPostsByUser (VNum 1);;
  newPost <-
    createPost
      (VObj [("title", VStr "My Test Post");
             ("body", VStr "This is a test post created via API");
             ("userId", VNum 1)]);;
  i <- prop newPost "id";;
  updatedPost <-
    updatePost i
      (VObj [("title", VStr "Updated Test Post");
             ("body", VStr "This post has been updated");
             ("userId", VNum 1)]);;
  i <- prop newPost "id";;
  patchedPost <- patchPost i (VObj [("title", VStr "Patched Test Post")]);;
  console_log nl;;

  console_log "2️⃣ COMMENTS DEMO";;
  console_log (repeat_string "-" 20);;
  comments <- getCommentsForPost (VNum 1);;
  b <- first_opt comments "body";;
  excerpt <-
    match b with
    | Some b => or_TypeError (substring b 0 50)
    | None => ret VUndef
    end;;
  e <- str excerpt;;
  console_log ("First comment: " ++ dq ++ e ++ "..." ++ dq);;
  console_log nl;;

  console_log "3️⃣ USERS DEMO";;
  console_log (repeat_string "-" 20);;
  users <- getAllUsers;;
  user1 <- getUser (VNum 1);;
  user1Albums <- getUserAlbums (VNum 1);;
  user1Todos <- getUserTodos (VNum 1);;
  console_log nl;;

  console_log "4️⃣ ALBUMS & PHOTOS DEMO";;
  console_log (repeat_string "-" 25);;
  albums <- getAllAlbums;;
  album1Photos <- getAlbumPhotos (VNum 1);;
  t <- first_opt album1Photos "title";;
  t <- str (match t with Some t => t | None => VUndef end);;
  console_log ("Sample photo: " ++ t);;
  console_log nl;;

  console_log "5️⃣ TODOS DEMO";;
  console_log (repeat_string "-" 15);;
  todos <- getAllTodos;;
  completedTodos <- getCompletedTodos;;
  c <- prop completedTodos "length";;
  t <- prop todos "length";;
  completionRate <- or_TypeError (completion_rate c t);;
  console_log ("📊 Todo completion rate: " ++ completionRate ++ "%");;
  console_log nl;;

  console_log "📊 DEMO SUMMARY";;
  console_log (repeat_string "-" 20);;
  n <- prop userPosts "length";; n <- str n;;
  console_log ("✅ Posts: " ++ n ++ " by user 1");;
  n <- prop comments "length";; n <- str n;;
  console_log ("💬 Comments: " ++ n ++ " on post 1");;
  n <- prop users "length";; n <- str n;;
  console_log ("👥 Users: " ++ n ++ " total");;
  n <- prop albums "length";; n <- str n;;
  console_log ("📚 Albums: " ++ n ++ " total");;
  n <- prop album1Photos "length";; n <- str n;;
  console_log ("🖼️ Photos: " ++ n ++ " in album 1");;
  n <- prop todos "length";; n <- str n;;
  c <- prop completedTodos "length";; c <- str c;;
  console_log ("📝 Todos: " ++ n ++ " total (" ++ c ++ " completed)");;
  console_log (nl ++ "🎉 Demo completed successfully!").

Definition runFullDemo : M value :=
  console_log "🚀 Starting JSONPlaceholder API Demo";;
  console_log ("=====================================" ++ nl);;
  try_catch runFullDemo_try
    (fun error => console_error "❌ Demo failed:" error);;
  ret VUndef.

End FullDemo.

(** The [try] block of [quickTest]. *)
Definition quickTest_try : M unit :=
  post <- getPost (VNum 1);;
  console_log "✅ GET request successful";;
  newPost <-
    createPost
      (VObj [("title", VStr "Quick Test Post");
             ("body", VStr "Testing POST request");
             ("userId", VNum 99)]);;
  console_log "✅ POST request successful";;
  userPosts <- getPostsByUser (VNum 1);;
  console_log "✅ Query parameters working";;
  comments <- getCommentsForPost (VNum 1);;
  console_log "✅ Nested routes working";;
  console_log (nl ++ "🎉 All tests passed! API is working correctly.").

Definition quickTest : M value :=
  console_log ("⚡ Running Quick Test..." ++ nl);;
  try_catch quickTest_try
    (fun error => console_error "❌ Quick test failed:" error);;
  ret VUndef.

(** ** Interactive help and what the script does when it is loaded *)

Definition interactiveDemo : M value :=
  console_log "🎯 Interactive JSONPlaceholder Demo";;
  console_log "==================================";;
  console_log "Available functions you can try:";;
  console_log EmptyString;;
  console_log "Posts:";;
  console_log "  getAllPosts()";;
  console_log "  getPost(id)";;
  console_log "  getPostsByUser(userId)";;
  console_log "  createPost({title, body, userId})";;
  console_log EmptyString;;
  console_log "Users:";;
  console_log "  getAllUsers()";;
  console_log "  getUser(id)";;
  console_log "  getUserAlbums(userId)";;
  console_log "  getUserTodos(userId)";;
  console_log EmptyString;;
  console_log "Comments:";;
  console_log "  getCommentsForPost(postId)";;
  console_log EmptyString;;
  console_log "Albums & Photos:";;
  console_log "  getAllAlbums()";;
  console_log "  getAlbumPhotos(albumId)";;
  console_log EmptyString;;
  console_log "Todos:";;
  console_log "  getAllTodos()";;
  console_log "  getCompletedTodos()";;
  console_log EmptyString;;
  console_log "Demo Functions:";;
  console_log "  quickTest()";;
  console_log "  runFullDemo()";;
  console_log EmptyString;;
  console_log "💡 Try: await getPost(1)";;
  ret VUndef.

(** What the identifier [module] stands for where the script is loaded. *)
Inductive module_binding : Type :=
| NoModule                        (* not declared, or [undefined] *)
| NullModule                      (* [null] *)
| Module (exports : bool).        (* any other value; is [module.exports] truthy? *)

(** What the identifier [require] stands for. *)
Inductive require_binding : Type :=
| NoRequire                       (* not declared *)
| NullishRequire                  (* [undefined] or [null] *)
| Require (main_is_module : bool). (* any other value; [require.main === module] *)

Record environment : Type :=
  { module : module_binding; window_defined : bool; require : require_binding }.

(** The statements at the top level of the script, after its function
    declarations.  [typeof] never throws; reading a property of [null] is
    a [TypeError], and reading an identifier that is not declared a
    [ReferenceError].  The assignment to [module.exports] has no event.
    The two hints are logged by the [then] callback of [quickTest()]. *)
Definition load (env : environment) : M unit :=
  (* if (typeof module !== 'undefined' && module.exports) *)
  match module env with
  | NullModule => throw TypeError
  | NoModule | Module _ => ret tt
  end;;
  (* if (typeof window !== 'undefined') *)
  (if window_defined env then
     console_log "🌐 JSONPlaceholder API Script Loaded!";;
     _ <- interactiveDemo;;
     ret tt
   else ret tt);;
  (* if (typeof module !== 'undefined' && require.main === module) *)
  match module env with
  | NoModule => ret tt
  | NullModule | Module _ =>
      main <-
        match require env with
        | NoRequire => throw ReferenceError
        | NullishRequire => throw TypeError
        | Require main_is_module => ret main_is_module
        end;;
      if main then
        _ <- quickTest;;
        console_log (nl ++ "💡 To run full demo: node script.js --full");;
        console_log "💡 To run interactive: open this file in browser console"
      else ret tt
  end.

End Script.
Export Script.

(* ================================================================== *)
(** * Vocabulary of the properties *)
(* ================================================================== *)

(** The [init] object that [makeRequest(url, options)] hands to [fetch]. *)
Definition request_init (options : value) : value :=
  let options := match options with VUndef => VObj [] | _ => options end in
  VObj (spread
          [("headers",
            VObj (spread [("Content-Type", VStr "application/json")]
                    (match get options "headers" with
                     | Some h => h
                     | None => VUndef
                     end)))]
          options).

(** The error [makeRequest] raises on a response that is not [ok]. *)
Definition http_error (r : response) : exn :=
  Error ("HTTP error! status: " ++ string_of_Z (status r)).

(** The headers of a request, and one header of it. *)
Definition headers_of (init : value) : value :=
  match get init "headers" with
  | Some h => h
  | None => VUndef
  end.

Definition header (init : value) (name : string) : value :=
  match get (headers_of init) name with
  | Some v => v
  | None => VUndef
  end.

(** A [fetch] outcome on which [makeRequest] fails: a rejection, a status
    outside 200..299, or a body that is read and does not parse. *)
Definition failing (o : fetch_outcome) : bool :=
  match o with
  | Rejects _ => true
  | Responds r =>
      negb (ok r)
      || (negb (status r =? 204)%Z
          && match body r with ParseFails _ => true | _ => false end)
  | NeverSettles => false
  end.

(** A [fetch] outcome that can leave an [await] pending for ever. *)
Definition unsettled (o : fetch_outcome) : bool :=
  match o with
  | NeverSettles => true
  | Responds r => match body r with BodyNeverSettles => true | _ => false end
  | Rejects _ => false
  end.

(** [uses n m]: [m] only appends events; it calls [fetch] at most [n]
    times, exactly [n] times when it returns, and it stays pending only on
    an unsettled outcome of one of its own calls. *)
Definition uses {A} (n : nat) (m : M A) : Prop :=
  forall w, exists evs,
    snd (m w) = extend w evs
    /\ List.length (requests evs) <= n
    /\ (forall a, fst (m w) = Return a -> List.length (requests evs) = n)
    /\ (fst (m w) = Pending ->
        exists i, i < List.length (requests evs)
                  /\ unsettled (net w (sent w + i)) = true).

(** [stops k m]: when the [k]-th [fetch] from now has a failing outcome,
    [m] does not return and calls [fetch] at most [k + 1] times; when it
    makes that call, it throws. *)
Definition stops {A} (k : nat) (m : M A) : Prop :=
  forall w, failing (net w (sent w + k)) = true ->
    (forall a, fst (m w) <> Return a)
    /\ sent (snd (m w)) <= sent w + S k
    /\ (sent (snd (m w)) = sent w + S k -> exists e, fst (m w) = Throw e).

(** The events [runFullDemo] and [quickTest] log before their [try]. *)
Definition runFullDemo_banner : list event :=
  [Log "🚀 Starting JSONPlaceholder API Demo";
   Log ("=====================================" ++ nl)].

Definition quickTest_banner : list event :=
  [Log ("⚡ Running Quick Test..." ++ nl)].

(** A world at its start, whose network delivers [outcomes] in order and
    nothing after them. *)
Definition world_of (outcomes : list fetch_outcome) : world :=
  {| net := fun n => nth n outcomes NeverSettles; trace := [] |}.

(** A response with a body that parses. *)
Definition respond (code : Z) (v : value) : fetch_outcome :=
  Responds {| status := code; body := Parses v |}.

(** ** Sample worlds *)

(** The answer to a [DELETE]: status 204 and a body that is no JSON text. *)
Definition no_content : response :=
  {| status := 204;
     body := ParseFails (HostError "SyntaxError" "Unexpected end of JSON input") |}.

(** The answer for a missing resource. *)
Definition not_found : response := {| status := 404; body := Parses (VObj []) |}.

Definition two_todos : list value :=
  [VObj [("id", VNum 1); ("title", VStr "a"); ("completed", VBool true)];
   VObj [("id", VNum 2); ("title", VStr "b"); ("completed", VBool false)]].

(** Two requests are served, the third is answered with status 500. *)
Definition third_fails : world :=
  world_of [respond 200 (VObj [("id", VNum 1); ("title", VStr "a")]);
            respond 200 (VArr []);
            respond 500 (VObj [])].

(** The first request is answered with status 200 and the body [null]. *)
Definition null_post : world := world_of [respond 200 VNull].

(** No request ever settles. *)
Definition silent_network : world :=
  {| net := fun _ => NeverSettles; trace := [] |}.

(** A host on which the completion-rate expression throws. *)
Definition no_rate (c t : value) : option string := None.

(** Every request is answered with status 500. *)
Definition always_500 : world :=
  {| net := fun _ => respond 500 (VObj []); trace := [] |}.

(** ** The endpoint wrappers, as one family *)

(** A call of one of the eighteen wrappers, with its arguments. *)
Inductive wrapper : Type :=
| GetAllPosts
| GetPost (id : value)
| GetPostsByUser (userId : value)
| CreatePost (postData : value)
| UpdatePost (id postData : value)
| PatchPost (id partialData : value)
| DeletePost (id : value)
| GetAllComments
| GetCommentsForPost (postId : value)
| GetAllUsers
| GetUser (id : value)
| GetUserAlbums (userId : value)
| GetUserTodos (userId : value)
| GetAllAlbums
| GetAlbumPhotos (albumId : value)
| GetAllPhotos
| GetAllTodos
| GetCompletedTodos.

Definition call (wr : wrapper) : M value :=
  match wr with
  | GetAllPosts => getAllPosts
  | GetPost id => getPost id
  | GetPostsByUser userId => getPostsByUser userId
  | CreatePost postData => createPost postData
  | UpdatePost id postData => updatePost id postData
  | PatchPost id partialData => patchPost id partialData
  | DeletePost id => deletePost id
  | GetAllComments => getAllComments
  | GetCommentsForPost postId => getCommentsForPost postId
  | GetAllUsers => getAllUsers
  | GetUser id => getUser id
  | GetUserAlbums userId => getUserAlbums userId
  | GetUserTodos userId => getUserTodos userId
  | GetAllAlbums => getAllAlbums
  | GetAlbumPhotos albumId => getAlbumPhotos albumId
  | GetAllPhotos => getAllPhotos
  | GetAllTodos => getAllTodos
  | GetCompletedTodos => getCompletedTodos
  end.

(** The first argument of the wrapper's call of [makeRequest]: its
    template literal, or [None] when an interpolated value has no string
    conversion. *)
Definition url_of (wr : wrapper) : option string :=
  match wr with
  | GetAllPosts | CreatePost _ => Some (API_BASE_URL ++ "/posts")
  | GetPost id | UpdatePost id _ | PatchPost id _ | DeletePost id =>
      option_map (fun i => API_BASE_URL ++ "/posts/" ++ i) (ToString id)
  | GetPostsByUser userId =>
      option_map (fun u => API_BASE_URL ++ "/posts?userId=" ++ u)
        (ToString userId)
  | GetAllComments => Some (API_BASE_URL ++ "/comments")
  | GetCommentsForPost postId =>
      option_map (fun p => API_BASE_URL ++ "/posts/" ++ p ++ "/comments")
        (ToString postId)
  | GetAllUsers => Some (API_BASE_URL ++ "/users")
  | GetUser id =>
      option_map (fun i => API_BASE_URL ++ "/users/" ++ i) (ToString id)
  | GetUserAlbums userId =>
      option_map (fun u => API_BASE_URL ++ "/users/" ++ u ++ "/albums")
        (ToString userId)
  | GetUserTodos userId =>
      option_map (fun u => API_BASE_URL ++ "/users/" ++ u ++ "/todos")
        (ToString userId)
  | GetAllAlbums => Some (API_BASE_URL ++ "/albums")
  | GetAlbumPhotos albumId =>
      option_map (fun a => API_BASE_URL ++ "/albums/" ++ a ++ "/photos")
        (ToString albumId)
  | GetAllPhotos => Some (API_BASE_URL ++ "/photos")
  | GetAllTodos | GetCompletedTodos => Some (API_BASE_URL ++ "/todos")
  end.

(** The second argument of the wrapper's call of [makeRequest];
    [undefined] where the call has one argument only. *)
Definition options_of (wr : wrapper) : value :=
  match wr with
  | CreatePost postData =>
      VObj [("method", VStr "POST"); ("body", JSON_stringify postData)]
  | UpdatePost id postData =>
      VObj [("method", VStr "PUT");
            ("body", JSON_stringify (VObj (spread [("id", id)] postData)))]
  | PatchPost _ partialData =>
      VObj [("method", VStr "PATCH"); ("body", JSON_stringify partialData)]
  | DeletePost _ => VObj [("method", VStr "DELETE")]
  | _ => VUndef
  end.

(** The requests a wrapper call makes: one, or none when its URL cannot be
    built. *)
Definition requests_of (wr : wrapper) : list (string * value) :=
  match url_of wr with
  | Some url => [(url, request_init (options_of wr))]
  | None => []
  end.

(** ** The method and path table of the specification *)

(** A path of the table: literal text and places for an argument. *)
Inductive piece : Type :=
| Lit (s : string)
| Param (v : value).

Fixpoint instantiate (path : list piece) : option string :=
  match path with
  | [] => Some EmptyString
  | Lit s :: path' => option_map (fun rest => s ++ rest) (instantiate path')
  | Param v :: path' =>
      match ToString v, instantiate path' with
      | Some s, Some rest => Some (s ++ rest)
      | _, _ => None
      end
  end.

(** Method and path of each operation, row by row. *)
Definition table (wr : wrapper) : string * list piece :=
  match wr with
  | GetAllPosts => ("GET", [Lit "/posts"])
  | GetPostsByUser userId => ("GET", [Lit "/posts?userId="; Param userId])
  | GetPost id => ("GET", [Lit "/posts/"; Param id])
  | CreatePost _ => ("POST", [Lit "/posts"])
  | UpdatePost id _ => ("PUT", [Lit "/posts/"; Param id])
  | PatchPost id _ => ("PATCH", [Lit "/posts/"; Param id])
  | DeletePost id => ("DELETE", [Lit "/posts/"; Param id])
  | GetAllComments => ("GET", [Lit "/comments"])
  | GetCommentsForPost postId =>
      ("GET", [Lit "/posts/"; Param postId; Lit "/comments"])
  | GetAllUsers => ("GET", [Lit "/users"])
  | GetUser id => ("GET", [Lit "/users/"; Param id])
  | GetAllAlbums => ("GET", [Lit "/albums"])
  | GetAllPhotos => ("GET", [Lit "/photos"])
  | GetAllTodos | GetCompletedTodos => ("GET", [Lit "/todos"])
  | GetUserAlbums userId => ("GET", [Lit "/users/"; Param userId; Lit "/albums"])
  | GetUserTodos userId => ("GET", [Lit "/users/"; Param userId; Lit "/todos"])
  | GetAlbumPhotos albumId =>
      ("GET", [Lit "/albums/"; Param albumId; Lit "/photos"])
  end.

(** The requests the table prescribes for a call. *)
Definition table_url (wr : wrapper) : option string :=
  option_map (fun path => API_BASE_URL ++ path) (instantiate (snd (table wr))).

(** ** Todos *)

Definition is_object (v : value) : bool :=
  match v with
  | VObj _ => true
  | _ => false
  end.

(** The [completed] flag of a todo, [undefined] when it has none. *)
Definition completed (todo : value) : value :=
  match get todo "completed" with
  | Some c => c
  | None => VUndef
  end.

(** The todos [getCompletedTodos] keeps. *)
Definition completed_todos (todos : list value) : list value :=
  filter (fun todo => truthy (completed todo)) todos.

(** [sublist l1 l2]: [l1] is [l2] with some elements left out, the others
    in their order. *)
Inductive sublist {A : Type} : list A -> list A -> Prop :=
| sublist_nil : sublist [] []
| sublist_skip x l1 l2 : sublist l1 l2 -> sublist l1 (x :: l2)
| sublist_keep x l1 l2 : sublist l1 l2 -> sublist (x :: l1) (x :: l2).

(** ** Further vocabulary: errors, plans of requests, completed runs *)

(** The [console.error] events of a trace. *)
Fixpoint logged_errors (t : list event) : list (string * exn) :=
  match t with
  | [] => []
  | LogError label e :: t' => (label, e) :: logged_errors t'
  | _ :: t' => logged_errors t'
  end.

(** The value [makeRequest] returns on status 204. *)
Definition success_marker : value := VObj [("success", VBool true)].

(** The error [makeRequest] throws on a failing outcome. *)
Definition error_of (o : fetch_outcome) : exn :=
  match o with
  | Rejects e => e
  | Responds r =>
      if negb (ok r) then http_error r
      else match body r with
           | ParseFails e => e
           | _ => TypeError
           end
  | NeverSettles => TypeError
  end.

Definition nullish (v : value) : bool :=
  match v with
  | VUndef | VNull => true
  | _ => false
  end.

(** The wrappers that read a property of the value [makeRequest] returned
    (for their second log line, or to filter it). *)
Definition reads_result (wr : wrapper) : bool :=
  match wr with
  | UpdatePost _ _ | PatchPost _ _ | DeletePost _ => false
  | _ => true
  end.

Definition prefix {A : Type} (p l : list A) : Prop := exists rest, l = (p ++ rest)%list.

(** The wrapper calls of [quickTest], in order. *)
Definition quickTest_calls : list wrapper :=
  [GetPost (VNum 1);
   CreatePost (VObj [("title", VStr "Quick Test Post");
                     ("body", VStr "Testing POST request");
                     ("userId", VNum 99)]);
   GetPostsByUser (VNum 1);
   GetCommentsForPost (VNum 1)].

(** The wrapper calls of [runFullDemo], in order; [i] is the [id] of the
    post that [createPost] returned. *)
Definition runFullDemo_calls (i : value) : list wrapper :=
  [GetPost (VNum 1);
   GetPostsByUser (VNum 1);
   CreatePost (VObj [("title", VStr "My Test Post");
                     ("body", VStr "This is a test post created via API");
                     ("userId", VNum 1)]);
   UpdatePost i (VObj [("title", VStr "Updated Test Post");
                       ("body", VStr "This post has been updated");
                       ("userId", VNum 1)]);
   PatchPost i (VObj [("title", VStr "Patched Test Post")]);
   GetCommentsForPost (VNum 1);
   GetAllUsers;
   GetUser (VNum 1);
   GetUserAlbums (VNum 1);
   GetUserTodos (VNum 1);
   GetAllAlbums;
   GetAlbumPhotos (VNum 1);
   GetAllTodos;
   GetCompletedTodos].

(** The requests of a list of wrapper calls. *)
Definition plan (calls : list wrapper) : list (string * value) :=
  flat_map requests_of calls.

(** [follows_at qs m w]: run from [w], [m] makes a prefix of the requests
    [qs], in their order, and all of them when it returns. *)
Definition follows_at {A} (qs : list (string * value)) (m : M A) (w : world)
  : Prop :=
  exists p,
    prefix p qs
    /\ requests (trace (snd (m w))) = (requests (trace w) ++ p)%list
    /\ (forall a, fst (m w) = Return a -> p = qs).

Definition follows {A} (qs : list (string * value)) (m : M A) : Prop :=
  forall w, follows_at qs m w.

(** [completes n m]: a run of [m] that returns has made [n] requests and
    has logged no error. *)
Definition completes {A} (n : nat) (m : M A) : Prop :=
  forall w a, fst (m w) = Return a ->
    exists evs,
      snd (m w) = extend w evs
      /\ logged_errors evs = []
      /\ List.length (requests evs) = n.

(** [ends_with ev m]: a run of [m] that returns has [ev] as last event. *)
Definition ends_with {A} (ev : event) (m : M A) : Prop :=
  forall w a, fst (m w) = Return a ->
    exists t, trace (snd (m w)) = (t ++ [ev])%list.

(** [reports k m]: when the [k]-th [fetch] from now has a failing outcome
    and [m] makes that call, [m] throws the error of that outcome, and the
    last event is [makeRequest]'s log of it. *)
Definition reports {A} (k : nat) (m : M A) : Prop :=
  forall w,
    failing (net w (sent w + k)) = true ->
    sent (snd (m w)) = sent w + S k ->
    let e := error_of (net w (sent w + k)) in
    fst (m w) = Throw e
    /\ exists t, trace (snd (m w)) = (t ++ [LogError "API Request failed:" e])%list.

(** A computation that can only return [x]. *)
Definition returns_only {A} (x : A) (m : M A) : Prop :=
  forall w a, fst (m w) = Return a -> a = x.

(** The last lines the drivers log when their [try] block completes. *)
Definition runFullDemo_success : event :=
  Log (nl ++ "🎉 Demo completed successfully!").

Definition quickTest_success : event :=
  Log (nl ++ "🎉 All tests passed! API is working correctly.").

(** ** Further vocabulary: what a wrapper call comes to, and where a
    driver is cut short *)

(** A [fetch] outcome that leaves [makeRequest] pending: the request never
    settles, or the body never does where it is read (a status in 200..299
    other than 204). *)
Definition hangs (o : fetch_outcome) : bool :=
  match o with
  | NeverSettles => true
  | Responds r =>
      ok r && negb (status r =? 204)%Z
      && match body r with BodyNeverSettles => true | _ => false end
  | Rejects _ => false
  end.

(** What the wrapper call [wr] comes to when its request ends in [o]. *)
Definition result_of (wr : wrapper) (o : fetch_outcome) : outcome value :=
  fst (call wr {| net := fun _ => o; trace := [] |}).

(** The identifier [runFullDemo] updates and patches: the [id] of what its
    third wrapper call, [createPost], returns. *)
Definition created_id (w : world) : value :=
  match
    result_of
      (CreatePost (VObj [("title", VStr "My Test Post");
                         ("body", VStr "This is a test post created via API");
                         ("userId", VNum 1)]))
      (net w (sent w + 2))
  with
  | Return newPost =>
      match get newPost "id" with
      | Some i => i
      | None => VUndef
      end
  | _ => VUndef
  end.

(** A computation whose outcome does not depend on the world. *)
Definition steady {A} (m : M A) : Prop :=
  forall w w', fst (m w) = fst (m w').

(** [waits m]: when [m] stays pending, it does so on the last request it
    made, whose outcome hangs. *)
Definition waits {A} (m : M A) : Prop :=
  forall w, fst (m w) = Pending ->
    exists j,
      sent (snd (m w)) = sent w + S j /\ hangs (net w (sent w + j)) = true.

(** [in_run w0 j w]: [w] is a state of a run from [w0] in which [j]
    requests have been made. *)
Definition in_run (w0 : world) (j : nat) (w : world) : Prop :=
  net w = net w0 /\ sent w = sent w0 + j.

(** [x] ends as the wrapper result [r], which is no return. *)
Definition ends_as {A} (r : outcome value) (x : outcome A) : Prop :=
  match r with
  | Return _ => False
  | Throw e => x = Throw e
  | Pending => x = Pending
  end.

(** [cut_at w0 k wr m w]: in a run from [w0] whose [k]-th wrapper call
    [wr] does not return, [m] run from [w] does not return, makes no
    request after the one of [wr], and ends as [wr] does when that request
    is made. *)
Definition cut_at {A} (w0 : world) (k : nat) (wr : wrapper) (m : M A)
  (w : world) : Prop :=
  (forall a, fst (m w) <> Return a)
  /\ sent (snd (m w)) <= sent w0 + k + List.length (requests_of wr)
  /\ (sent (snd (m w)) = sent w0 + S k ->
      ends_as (result_of wr (net w0 (sent w0 + k))) (fst (m w))).

(** What a driver's run [run] from [w] looks like when its [k]-th wrapper
    call [wr] fails with [e]: no request follows the one of [wr]; a run
    that finishes returns [undefined] with the failure summary,
    [console.error(label, _)], as last event; a run that makes the request
    of [wr] finishes, and the summary carries [e]; and the run can stay
    pending only on an earlier request, whose outcome hangs. *)
Definition aborts (label : string) (w : world) (k : nat) (wr : wrapper)
  (e : exn) (run : outcome value * world) : Prop :=
  sent (snd run) <= sent w + k + List.length (requests_of wr)
  /\ (forall v, fst run = Return v ->
      v = VUndef
      /\ exists t e', trace (snd run) = (t ++ [LogError label e'])%list)
  /\ (sent (snd run) = sent w + S k ->
      fst run = Return VUndef
      /\ exists t, trace (snd run) = (t ++ [LogError label e])%list)
  /\ (fst run = Pending ->
      exists j,
        j < k /\ sent (snd run) = sent w + S j
        /\ hangs (net w (sent w + j)) = true).

(** The error the top level of the script throws in an environment, if
    any: [module] is [null], or [module] is defined and [require] is not. *)
Definition load_error (env : environment) : option exn :=
  match module env, require env with
  | NoModule, _ => None
  | NullModule, _ => Some TypeError
  | Module _, NoRequire => Some ReferenceError
  | Module _, NullishRequire => Some TypeError
  | Module _, Require _ => None
  end.

(** The script is loaded as the main module of a CommonJS host. *)
Definition is_main (env : environment) : bool :=
  match module env, require env with
  | Module _, Require main_is_module => main_is_module
  | _, _ => false
  end.

(** A response with status 200 and a JSON body. *)
Definition ok_200 (v : value) : response := {| status := 200; body := Parses v |}.

(* ================================================================== *)
(** * Worlds and traces *)
(* ================================================================== *)

Lemma requests_app t1 t2 : requests (t1 ++ t2) = (requests t1 ++ requests t2)%list.
Proof.
  induction t1 as [|ev t1 IH]; simpl; [reflexivity|].
  destruct ev; simpl; now rewrite IH.
Qed.

Lemma extend_nil w : extend w [] = w.
Proof. destruct w; unfold extend; simpl. now rewrite app_nil_r. Qed.

Lemma extend_extend w evs1 evs2 :
  extend (extend w evs1) evs2 = extend w (evs1 ++ evs2).
Proof. unfold extend; simpl. now rewrite app_assoc. Qed.

Lemma sent_extend w evs :
  sent (extend w evs) = sent w + List.length (requests evs).
Proof. unfold sent, extend; simpl. now rewrite requests_app, length_app. Qed.

Lemma net_extend w evs : net (extend w evs) = net w.
Proof. reflexivity. Qed.

Lemma trace_extend w evs : trace (extend w evs) = (trace w ++ evs)%list.
Proof. reflexivity. Qed.

(* ================================================================== *)
(** * The request helper *)
(* ================================================================== *)

(** Every run of [makeRequest] on options other than [null], by the outcome
    of the [fetch] it makes. *)
Lemma makeRequest_run url options w :
  options <> VNull ->
  makeRequest url options w =
  let rq := Fetch url (request_init options) in
  match net w (sent w) with
  | NeverSettles => (Pending, extend w [rq])
  | Rejects e => (Throw e, extend w [rq; LogError "API Request failed:" e])
  | Responds r =>
      if negb (ok r) then
        (Throw (http_error r),
         extend w [rq; LogError "API Request failed:" (http_error r)])
      else if (status r =? 204)%Z then
        (Return (VObj [("success", VBool true)]), extend w [rq])
      else
        match body r with
        | Parses v => (Return v, extend w [rq; ReadJson])
        | ParseFails e =>
            (Throw e, extend w [rq; ReadJson; LogError "API Request failed:" e])
        | BodyNeverSettles => (Pending, extend w [rq; ReadJson])
        end
  end.
Proof.
  intros Hnull.
  assert (Hget : exists h,
             get (match options with VUndef => VObj [] | _ => options end)
               "headers" = Some h).
  { destruct options; simpl; try congruence; eauto. }
  destruct Hget as [h Hh].
  unfold makeRequest, request_init, try_catch, bind, prop.
  rewrite Hh. cbn [or_TypeError ret fetch].
  destruct (net w (sent w)) as [r|e|].
  - destruct (negb (ok r)); simpl.
    + unfold console_error, http_error. now rewrite extend_extend.
    + destruct (status r =? 204)%Z; simpl; [reflexivity|].
      unfold json. destruct (body r); simpl; rewrite ?extend_extend; reflexivity.
  - simpl. unfold console_error. now rewrite extend_extend.
  - reflexivity.
Qed.

(* ================================================================== *)
(** * Objects: lookup after [define] and after a spread *)
(* ================================================================== *)

Lemma lookup_replace k v ps k' :
  lookup k' (replace k v ps) =
  match lookup k ps with
  | Some _ => if k =? k' then Some v else lookup k' ps
  | None => lookup k' ps
  end.
Proof.
  induction ps as [|[k0 v0] ps IH]; simpl; [reflexivity|].
  destruct (k0 =? k) eqn:E0; simpl.
  - apply String.eqb_eq in E0; subst k0. now destruct (k =? k').
  - rewrite IH. destruct (lookup k ps); [|reflexivity].
    destruct (k =? k') eqn:E1; [|reflexivity].
    apply String.eqb_eq in E1; subst k'. now rewrite E0.
Qed.

Lemma lookup_insert_index n k v ps k' :
  lookup k ps = None ->
  lookup k' (insert_index n k v ps) = if k =? k' then Some v else lookup k' ps.
Proof.
  induction ps as [|[k0 v0] ps IH]; simpl; intros Hk.
  - reflexivity.
  - destruct (k0 =? k) eqn:E0; [discriminate|].
    destruct (index_of_key k0) as [m|]; [destruct (m <? n)%N|]; simpl;
      try reflexivity.
    rewrite (IH Hk). destruct (k =? k') eqn:E1; [|reflexivity].
    apply String.eqb_eq in E1; subst k'. now rewrite E0.
Qed.

Lemma lookup_app_last k v ps k' :
  lookup k ps = None ->
  lookup k' (ps ++ [(k, v)]) = if k =? k' then Some v else lookup k' ps.
Proof.
  induction ps as [|[k0 v0] ps IH]; simpl; intros Hk.
  - reflexivity.
  - destruct (k0 =? k) eqn:E0; [discriminate|].
    rewrite (IH Hk). destruct (k =? k') eqn:E1; [|reflexivity].
    apply String.eqb_eq in E1; subst k'. now rewrite E0.
Qed.

(** A defined property reads back; every other property is untouched. *)
Lemma lookup_define k v ps k' :
  lookup k' (define k v ps) = if k =? k' then Some v else lookup k' ps.
Proof.
  unfold define. destruct (lookup k ps) eqn:Hk.
  - now rewrite lookup_replace, Hk.
  - destruct (index_of_key k).
    + now apply lookup_insert_index.
    + now apply lookup_app_last.
Qed.

Lemma lookup_define_all src : forall target k,
  lookup k src = None ->
  lookup k (fold_left (fun acc kv => define (fst kv) (snd kv) acc) src target)
  = lookup k target.
Proof.
  induction src as [|[k0 v0] src IH]; simpl; intros target k Hk; [reflexivity|].
  destruct (k0 =? k) eqn:E0; [discriminate|].
  now rewrite (IH _ _ Hk), lookup_define, E0.
Qed.

Lemma lookup_define_all_hit src : forall target k v,
  distinct_keys src = true ->
  lookup k src = Some v ->
  lookup k (fold_left (fun acc kv => define (fst kv) (snd kv) acc) src target)
  = Some v.
Proof.
  induction src as [|[k0 v0] src IH]; simpl; intros target k v Hd Hk;
    [discriminate|].
  destruct (lookup k0 src) eqn:H0; [discriminate|].
  destruct (k0 =? k) eqn:E0.
  - apply String.eqb_eq in E0; subst k0. injection Hk as <-.
    now rewrite (lookup_define_all _ _ _ H0), lookup_define, String.eqb_refl.
  - now apply IH.
Qed.

(** A property of the spread object overrides the one written before it. *)
Lemma lookup_spread_hit target ps k v :
  distinct_keys ps = true ->
  lookup k ps = Some v ->
  lookup k (spread target (VObj ps)) = Some v.
Proof. apply lookup_define_all_hit. Qed.

(** A property the spread object lacks keeps the value written before. *)
Lemma lookup_spread_miss target ps k :
  lookup k ps = None ->
  lookup k (spread target (VObj ps)) = lookup k target.
Proof. apply lookup_define_all. Qed.

(** When [options] has a [headers] property of its own, the spread of
    [options] replaces the merged headers by it. *)
Lemma request_init_headers_own ps h :
  distinct_keys ps = true ->
  lookup "headers" ps = Some h ->
  headers_of (request_init (VObj ps)) = h.
Proof.
  intros Hd Hh. unfold headers_of, request_init; simpl.
  now rewrite (lookup_spread_hit _ _ _ _ Hd Hh).
Qed.

(** When [options] has no [headers] property, the default header stands. *)
Lemma request_init_headers_default ps :
  lookup "headers" ps = None ->
  headers_of (request_init (VObj ps))
  = VObj [("Content-Type", VStr "application/json")].
Proof.
  intros Hh. unfold headers_of, request_init; simpl.
  now rewrite (lookup_spread_miss _ _ _ Hh), Hh.
Qed.

(* ================================================================== *)
(** * Properties of the request helper *)
(* ================================================================== *)

(** C1.  The default header is merged in and then lost.  Called with the
    options [{ headers: { Accept: 'text/plain' } }], [makeRequest] passes
    to [fetch] the caller's headers object as it is: the merged object
    built first is overwritten by the spread of [options], so the request
    carries no [Content-Type] header. *)
Theorem makeRequest_drops_default_header url w :
  let options := VObj [("headers", VObj [("Accept", VStr "text/plain")])] in
  requests (trace (snd (makeRequest url options w)))
  = (requests (trace w)
       ++ [(url, VObj [("headers", VObj [("Accept", VStr "text/plain")])])])%list
  /\ header (request_init options) "Content-Type" = VUndef
  /\ header (request_init options) "Accept" = VStr "text/plain".
Proof.
  intros options. split; [|split; reflexivity].
  rewrite makeRequest_run by discriminate.
  cbv zeta.
  destruct (net w (sent w)) as [r| |];
    [destruct (negb (ok r)); [|destruct (status r =? 204)%Z; [|destruct (body r)]]| |];
    cbn [snd]; rewrite trace_extend, requests_app; reflexivity.
Qed.

(** C2.  When the response to the request has status 204, [makeRequest]
    returns [{ success: true }], and the only event of the call is the
    [fetch]: the body is never read as JSON, whatever it holds. *)
Theorem makeRequest_204 url options w r :
  options <> VNull ->
  net w (sent w) = Responds r ->
  status r = 204%Z ->
  makeRequest url options w
  = (Return (VObj [("success", VBool true)]),
     extend w [Fetch url (request_init options)])
  /\ ~ In ReadJson [Fetch url (request_init options)].
Proof.
  intros Hnull Hnet Hst. split.
  - rewrite makeRequest_run by assumption. cbv zeta. rewrite Hnet.
    unfold ok. rewrite Hst. reflexivity.
  - simpl. intros [H|[]]. discriminate.
Qed.

(** C3.  When the response has a status outside 200..299, [makeRequest]
    returns nothing: it throws [Error] with the message
    [HTTP error! status: <status>], after [console.error] has logged that
    very error. *)
Theorem makeRequest_http_failure url options w r :
  options <> VNull ->
  net w (sent w) = Responds r ->
  (status r < 200 \/ 299 < status r)%Z ->
  let e := Error ("HTTP error! status: " ++ string_of_Z (status r)) in
  makeRequest url options w
  = (Throw e,
     extend w [Fetch url (request_init options);
               LogError "API Request failed:" e]).
Proof.
  intros Hnull Hnet Hst e.
  rewrite makeRequest_run by assumption. cbv zeta. rewrite Hnet.
  assert (Hok : ok r = false).
  { unfold ok. destruct Hst.
    - replace (200 <=? status r)%Z with false by (symmetry; apply Z.leb_gt; lia).
      reflexivity.
    - replace (status r <=? 299)%Z with false by (symmetry; apply Z.leb_gt; lia).
      apply andb_false_r. }
  rewrite Hok. reflexivity.
Qed.

(* ================================================================== *)
(** * Counting the requests of a computation *)
(* ================================================================== *)

Create HintDb uses.

Lemma uses_ret {A} (a : A) : uses 0 (ret a).
Proof.
  intros w. exists []. rewrite extend_nil. simpl.
  repeat split; auto; discriminate.
Qed.

Lemma uses_throw {A} e : uses 0 (@throw A e).
Proof.
  intros w. exists []. rewrite extend_nil. simpl.
  repeat split; auto; discriminate.
Qed.

Lemma uses_console_log s : uses 0 (console_log s).
Proof.
  intros w. exists [Log s]. simpl. repeat split; auto; discriminate.
Qed.

Lemma uses_console_error l e : uses 0 (console_error l e).
Proof.
  intros w. exists [LogError l e]. simpl. repeat split; auto; discriminate.
Qed.

Lemma uses_or_TypeError {A} (o : option A) : uses 0 (or_TypeError o).
Proof. destruct o; [apply uses_ret | apply uses_throw]. Qed.

Lemma uses_prop v k : uses 0 (prop v k).
Proof. apply uses_or_TypeError. Qed.

Lemma uses_str v : uses 0 (str v).
Proof. apply uses_or_TypeError. Qed.

Lemma uses_bind {A B} a b (m : M A) (f : A -> M B) :
  uses a m -> (forall x, uses b (f x)) -> uses (a + b) (bind m f).
Proof.
  intros Hm Hf w. destruct (Hm w) as (evs1 & Hs1 & Hle1 & Hret1 & Hp1).
  unfold bind. destruct (m w) as [[x|e|] w1] eqn:E; simpl in *.
  - subst w1.
    destruct (Hf x (extend w evs1)) as (evs2 & Hs2 & Hle2 & Hret2 & Hp2).
    exists (evs1 ++ evs2)%list.
    rewrite Hs2, extend_extend, requests_app, length_app.
    specialize (Hret1 x eq_refl).
    split; [reflexivity|]. split; [lia|]. split.
    + intros y Hy. rewrite (Hret2 y Hy). lia.
    + intros Hp. destruct (Hp2 Hp) as (i & Hi & Hu).
      exists (List.length (requests evs1) + i).
      rewrite net_extend, sent_extend in Hu.
      split; [lia|]. now rewrite Nat.add_assoc.
  - exists evs1. split; [assumption|]. split; [lia|].
    split; intros; discriminate.
  - exists evs1. split; [assumption|]. split; [lia|].
    split; [intros; discriminate|]. intros _. now apply Hp1.
Qed.

Lemma uses_bind_0 {A B} n (m : M A) (f : A -> M B) :
  uses 0 m -> (forall x, uses n (f x)) -> uses n (bind m f).
Proof. apply (uses_bind 0 n). Qed.

Lemma uses_bind_1 {A B} n (m : M A) (f : A -> M B) :
  uses 1 m -> (forall x, uses n (f x)) -> uses (S n) (bind m f).
Proof. apply (uses_bind 1 n). Qed.

Lemma uses_makeRequest url options :
  options <> VNull -> uses 1 (makeRequest url options).
Proof.
  intros Hnull w. rewrite makeRequest_run by assumption. cbv zeta.
  destruct (net w (sent w)) as [r|e|] eqn:Hnet.
  - destruct (negb (ok r)); [|destruct (status r =? 204)%Z].
    + eexists; split; [reflexivity|]. simpl.
      repeat split; auto; discriminate.
    + eexists; split; [reflexivity|]. simpl.
      repeat split; auto; discriminate.
    + destruct (body r) eqn:Hb; (eexists; split; [reflexivity|]); simpl;
        (split; [auto|split; [auto|]]); try discriminate.
      intros _. exists 0. split; [lia|].
      rewrite Nat.add_0_r, Hnet. simpl. now rewrite Hb.
  - eexists; split; [reflexivity|]. simpl. repeat split; auto; discriminate.
  - eexists; split; [reflexivity|]. simpl. split; [auto|split; [auto|]].
    intros _. exists 0. split; [lia|]. now rewrite Nat.add_0_r, Hnet.
Qed.

Lemma uses_filter_elems k xs :
  uses 0 (filter_elems (fun todo => prop todo k) xs).
Proof.
  induction xs as [|x xs IH]; simpl.
  - apply uses_ret.
  - apply uses_bind_0; [apply uses_prop|]. intros r.
    apply uses_bind_0; [exact IH|]. intros ys. apply uses_ret.
Qed.

Lemma uses_array_filter v k :
  uses 0 (array_filter v (fun todo => prop todo k)).
Proof.
  destruct v; simpl; try apply uses_throw.
  apply uses_bind_0; [apply uses_filter_elems|]. intros; apply uses_ret.
Qed.

#[export] Hint Resolve uses_ret uses_throw uses_console_log uses_console_error
  uses_or_TypeError uses_prop uses_str uses_array_filter : uses.

(** A computation that makes no request: one step of the proof. *)
Ltac uses0_step :=
  lazymatch goal with
  | |- uses 0 (bind _ _) => apply uses_bind_0; [|intros ?]
  | |- uses 0 (match ?x with _ => _ end) => destruct x
  | |- uses 0 _ => solve [auto with uses]
  end.

Ltac uses0 := repeat uses0_step.

Lemma uses_first_opt x k : uses 0 (first_opt x k).
Proof. unfold first_opt. uses0. Qed.

#[export] Hint Resolve uses_first_opt : uses.

(** A wrapper: no request before and none after its [makeRequest]. *)
Ltac uses_wrapper :=
  repeat (apply uses_bind_0; [solve [auto with uses]|intros ?]);
  apply (uses_bind 1 0); [apply uses_makeRequest; discriminate|intros ?];
  uses0.

Lemma uses_getAllPosts : uses 1 getAllPosts.
Proof. unfold getAllPosts. uses_wrapper. Qed.

Lemma uses_getPost id : uses 1 (getPost id).
Proof. unfold getPost. uses_wrapper. Qed.

Lemma uses_getPostsByUser userId : uses 1 (getPostsByUser userId).
Proof. unfold getPostsByUser. uses_wrapper. Qed.

Lemma uses_createPost postData : uses 1 (createPost postData).
Proof. unfold createPost. uses_wrapper. Qed.

Lemma uses_updatePost id postData : uses 1 (updatePost id postData).
Proof. unfold updatePost. uses_wrapper. Qed.

Lemma uses_patchPost id partialData : uses 1 (patchPost id partialData).
Proof. unfold patchPost. uses_wrapper. Qed.

Lemma uses_deletePost id : uses 1 (deletePost id).
Proof. unfold deletePost. uses_wrapper. Qed.

Lemma uses_getAllComments : uses 1 getAllComments.
Proof. unfold getAllComments. uses_wrapper. Qed.

Lemma uses_getCommentsForPost postId : uses 1 (getCommentsForPost postId).
Proof. unfold getCommentsForPost. uses_wrapper. Qed.

Lemma uses_getAllUsers : uses 1 getAllUsers.
Proof. unfold getAllUsers. uses_wrapper. Qed.

Lemma uses_getUser id : uses 1 (getUser id).
Proof. unfold getUser. uses_wrapper. Qed.

Lemma uses_getUserAlbums userId : uses 1 (getUserAlbums userId).
Proof. unfold getUserAlbums. uses_wrapper. Qed.

Lemma uses_getUserTodos userId : uses 1 (getUserTodos userId).
Proof. unfold getUserTodos. uses_wrapper. Qed.

Lemma uses_getAllAlbums : uses 1 getAllAlbums.
Proof. unfold getAllAlbums. uses_wrapper. Qed.

Lemma uses_getAlbumPhotos albumId : uses 1 (getAlbumPhotos albumId).
Proof. unfold getAlbumPhotos. uses_wrapper. Qed.

Lemma uses_getAllPhotos : uses 1 getAllPhotos.
Proof. unfold getAllPhotos. uses_wrapper. Qed.

Lemma uses_getAllTodos : uses 1 getAllTodos.
Proof. unfold getAllTodos. uses_wrapper. Qed.

Lemma uses_getCompletedTodos : uses 1 getCompletedTodos.
Proof. unfold getCompletedTodos. uses_wrapper. Qed.

Create HintDb wrappers.

#[export] Hint Resolve uses_getAllPosts uses_getPost uses_getPostsByUser
  uses_createPost uses_updatePost uses_patchPost uses_deletePost
  uses_getAllComments uses_getCommentsForPost uses_getAllUsers uses_getUser
  uses_getUserAlbums uses_getUserTodos uses_getAllAlbums uses_getAlbumPhotos
  uses_getAllPhotos uses_getAllTodos uses_getCompletedTodos : wrappers.

(* ================================================================== *)
(** * The request of each wrapper *)
(* ================================================================== *)

Lemma bind_ret {A B} (a : A) (f : A -> M B) w : bind (ret a) f w = f a w.
Proof. reflexivity. Qed.

Lemma bind_throw {A B} e (f : A -> M B) w : bind (throw e) f w = (Throw e, w).
Proof. reflexivity. Qed.

Lemma bind_console_log {B} s (f : unit -> M B) w :
  bind (console_log s) f w = f tt (extend w [Log s]).
Proof. reflexivity. Qed.

Lemma str_Some v s : ToString v = Some s -> str v = ret s.
Proof. unfold str. now intros ->. Qed.

Lemma str_None v : ToString v = None -> str v = throw TypeError.
Proof. unfold str. now intros ->. Qed.

Lemma requests_bind_uses0 {A B} (m : M A) (f : A -> M B) w :
  (forall x, uses 0 (f x)) ->
  requests (trace (snd (bind m f w))) = requests (trace (snd (m w))).
Proof.
  intros Hf. unfold bind. destruct (m w) as [[x|e|] w1]; simpl; auto.
  destruct (Hf x w1) as (evs & Hs & Hle & _).
  rewrite Hs, trace_extend, requests_app.
  destruct (requests evs); [apply app_nil_r|simpl in Hle; lia].
Qed.

Lemma requests_makeRequest url options w :
  options <> VNull ->
  requests (trace (snd (makeRequest url options w)))
  = (requests (trace w) ++ [(url, request_init options)])%list.
Proof.
  intros Hnull. rewrite makeRequest_run by assumption. cbv zeta.
  destruct (net w (sent w)) as [r| |];
    [destruct (negb (ok r)); [|destruct (status r =? 204)%Z; [|destruct (body r)]]| |];
    cbn [snd]; rewrite trace_extend, requests_app; reflexivity.
Qed.

(** The requests of a wrapper: walk to the call of [makeRequest], which is
    followed by no further request, or to the conversion that throws. *)
Ltac wrapper_requests :=
  repeat first [rewrite bind_ret | rewrite bind_console_log];
  first
    [ rewrite bind_throw; cbn [snd]
    | rewrite requests_bind_uses0 by (intros; uses0);
      rewrite requests_makeRequest by discriminate ];
  rewrite ?trace_extend, ?requests_app; cbn [requests]; rewrite ?app_nil_r;
  reflexivity.

Ltac wrapper_requests_on v :=
  let Hs := fresh "Hs" in
  destruct (ToString v) eqn:Hs; cbn [option_map];
  [rewrite !(str_Some _ _ Hs) | rewrite !(str_None _ Hs)];
  wrapper_requests.

(** Every wrapper call makes the one request [requests_of] describes. *)
Lemma call_requests wr w :
  requests (trace (snd (call wr w)))
  = (requests (trace w) ++ requests_of wr)%list.
Proof.
  destruct wr; unfold requests_of, url_of, call; cbn [option_map];
    unfold getAllPosts, getPost, getPostsByUser, createPost, updatePost,
      patchPost, deletePost, getAllComments, getCommentsForPost, getAllUsers,
      getUser, getUserAlbums, getUserTodos, getAllAlbums, getAlbumPhotos,
      getAllPhotos, getAllTodos, getCompletedTodos;
    lazymatch goal with
    | |- context [str ?v] => wrapper_requests_on v
    | _ => wrapper_requests
    end.
Qed.

Lemma append_empty_r s : s ++ EmptyString = s.
Proof. induction s as [|c s IH]; simpl; [reflexivity|now rewrite IH]. Qed.

(** The URL each wrapper builds is the one of the table. *)
Lemma url_of_table wr : url_of wr = table_url wr.
Proof.
  destruct wr; unfold url_of, table_url; cbn [table snd instantiate];
    try reflexivity;
    match goal with
    | |- context [ToString ?v] => destruct (ToString v)
    end; cbn [option_map]; rewrite ?append_empty_r; reflexivity.
Qed.

(** The method each wrapper requests is the one of the table. *)
Lemma method_of_table wr :
  method_of (request_init (options_of wr)) = VStr (fst (table wr)).
Proof. destruct wr; reflexivity. Qed.

(* ================================================================== *)
(** * Properties of the wrappers *)
(* ================================================================== *)

(** C5.  [updatePost(5, {title: "t", body: "b", userId: 1})] calls [fetch]
    exactly once, whatever the network does: with the URL
    [{base}/posts/5], method [PUT], and as body the JSON text of
    [{id: 5, title: "t", body: "b", userId: 1}]. *)
Theorem updatePost_5_request w :
  let postData :=
    VObj [("title", VStr "t"); ("body", VStr "b"); ("userId", VNum 1)] in
  let payload :=
    VObj [("id", VNum 5); ("title", VStr "t"); ("body", VStr "b");
          ("userId", VNum 1)] in
  requests (trace (snd (updatePost (VNum 5) postData w)))
  = (requests (trace w)
       ++ [("https://jsonplaceholder.typicode.com/posts/5",
            VObj [("headers", VObj [("Content-Type", VStr "application/json")]);
                  ("method", VStr "PUT");
                  ("body", JSON_stringify payload)])])%list
  /\ JSON_stringify payload
     = VStr ("{" ++ dq ++ "id" ++ dq ++ ":5,"
             ++ dq ++ "title" ++ dq ++ ":" ++ dq ++ "t" ++ dq ++ ","
             ++ dq ++ "body" ++ dq ++ ":" ++ dq ++ "b" ++ dq ++ ","
             ++ dq ++ "userId" ++ dq ++ ":1}").
Proof.
  intros postData payload. split; [|reflexivity].
  exact (call_requests (UpdatePost (VNum 5) postData) w).
Qed.

(** C6.  Every wrapper call, for every argument, makes the request of its
    row of the table: the URL is the base followed by the path of the row
    with the argument written in, and the method is the one of the row (no
    request is made when the argument has no string conversion).  In
    particular [getPostsByUser(1)] makes a GET request to
    [{base}/posts?userId=1], and [createPost(postData)] a POST request to
    [{base}/posts] whose body is [JSON.stringify(postData)]. *)
Theorem wrappers_follow_table wr w :
  (requests (trace (snd (call wr w)))
   = (requests (trace w)
        ++ match table_url wr with
           | Some url => [(url, request_init (options_of wr))]
           | None => []
           end)%list
   /\ method_of (request_init (options_of wr)) = VStr (fst (table wr)))
  /\ (requests (trace (snd (getPostsByUser (VNum 1) w)))
      = (requests (trace w)
           ++ [("https://jsonplaceholder.typicode.com/posts?userId=1",
                VObj [("headers",
                       VObj [("Content-Type", VStr "application/json")])])])%list
      /\ method_of
           (VObj [("headers", VObj [("Content-Type", VStr "application/json")])])
         = VStr "GET")
  /\ (forall postData,
        requests (trace (snd (createPost postData w)))
        = (requests (trace w)
             ++ [("https://jsonplaceholder.typicode.com/posts",
                  VObj [("headers",
                         VObj [("Content-Type", VStr "application/json")]);
                        ("method", VStr "POST");
                        ("body", JSON_stringify postData)])])%list).
Proof.
  split; [split|split; [split|]].
  - rewrite call_requests. unfold requests_of. now rewrite url_of_table.
  - apply method_of_table.
  - exact (call_requests (GetPostsByUser (VNum 1)) w).
  - reflexivity.
  - intros postData. exact (call_requests (CreatePost postData) w).
Qed.

(** C8.  When [postData] is an object with an [id] property of its own,
    the object [updatePost(id, postData)] serialises as the body has
    [postData.id] as its [id], not the argument [id]; the URL is built
    from the argument [id].  (The one request is made whenever the
    argument [id] has a string conversion.) *)
Theorem updatePost_body_id_is_postData_id id ps v w :
  distinct_keys ps = true ->
  lookup "id" ps = Some v ->
  let payload := VObj (spread [("id", id)] (VObj ps)) in
  get payload "id" = Some v
  /\ requests (trace (snd (updatePost id (VObj ps) w)))
     = (requests (trace w)
          ++ match ToString id with
             | Some i =>
                 [((API_BASE_URL ++ "/posts/" ++ i)%string,
                   VObj [("headers",
                          VObj [("Content-Type", VStr "application/json")]);
                         ("method", VStr "PUT");
                         ("body", JSON_stringify payload)])]
             | None => []
             end)%list.
Proof.
  intros Hd Hid payload. split.
  - unfold payload. cbn [get]. now rewrite (lookup_spread_hit _ _ _ _ Hd Hid).
  - change (updatePost id (VObj ps)) with (call (UpdatePost id (VObj ps))).
    rewrite call_requests. unfold requests_of, url_of.
    now destruct (ToString id).
Qed.

(** C10.  No wrapper passes a [headers] property to [makeRequest]: its
    options are absent or hold [method] and [body] only.  Hence every
    request a wrapper makes has exactly the default headers,
    [Content-Type: application/json]. *)
Theorem wrappers_send_default_headers wr w :
  (options_of wr = VUndef
   \/ exists ps, options_of wr = VObj ps /\ lookup "headers" ps = None)
  /\ requests (trace (snd (call wr w)))
     = (requests (trace w) ++ requests_of wr)%list
  /\ Forall
       (fun rq =>
          headers_of (snd rq) = VObj [("Content-Type", VStr "application/json")]
          /\ header (snd rq) "Content-Type" = VStr "application/json")
       (requests_of wr).
Proof.
  split; [|split].
  - destruct wr; simpl; eauto.
  - apply call_requests.
  - unfold requests_of. destruct (url_of wr); constructor; [|constructor].
    cbn [snd]. destruct wr; split; reflexivity.
Qed.

(* ================================================================== *)
(** * Completed todos *)
(* ================================================================== *)

Lemma filter_sublist {A} (f : A -> bool) l : sublist (filter f l) l.
Proof.
  induction l as [|x l IH]; simpl; [constructor|].
  destruct (f x); now constructor.
Qed.

(** On objects the callback of the filter never throws: the loop is the
    pure filter and leaves the world as it is. *)
Lemma filter_elems_objects todos w :
  Forall (fun t => is_object t = true) todos ->
  filter_elems (fun todo => prop todo "completed") todos w
  = (Return (completed_todos todos), w).
Proof.
  induction 1 as [|t todos Ht _ IH]; [reflexivity|].
  destruct t; try discriminate.
  cbn [filter_elems]. unfold bind at 1. cbn [prop get or_TypeError ret].
  unfold bind at 1. rewrite IH. reflexivity.
Qed.

Lemma next_outcome_after_log w s :
  net (extend w [Log s]) (sent (extend w [Log s])) = net w (sent w).
Proof. rewrite net_extend, sent_extend. simpl. now rewrite Nat.add_0_r. Qed.

Lemma makeRequest_returns_body url w r v :
  net w (sent w) = Responds r ->
  ok r = true ->
  status r <> 204%Z ->
  body r = Parses v ->
  makeRequest url VUndef w
  = (Return v, extend w [Fetch url (request_init VUndef); ReadJson]).
Proof.
  intros Hnet Hok Hst Hb. rewrite makeRequest_run by discriminate. cbv zeta.
  rewrite Hnet, Hok. cbn [negb].
  destruct (Z.eqb_spec (status r) 204); [contradiction|]. now rewrite Hb.
Qed.

(** C4.  When the fetch of [/todos] returns a list of todo objects,
    [getAllTodos] returns that list and [getCompletedTodos] returns the
    todos of it whose [completed] flag is truthy, in their order: a sublist
    that holds every todo whose flag is [true] and none whose flag is
    [false]. *)
Theorem getCompletedTodos_filters w r todos :
  net w (sent w) = Responds r ->
  ok r = true ->
  status r <> 204%Z ->
  body r = Parses (VArr todos) ->
  Forall (fun t => is_object t = true) todos ->
  fst (getAllTodos w) = Return (VArr todos)
  /\ fst (getCompletedTodos w) = Return (VArr (completed_todos todos))
  /\ sublist (completed_todos todos) todos
  /\ (forall t, In t (completed_todos todos) <->
                In t todos /\ truthy (completed t) = true)
  /\ (forall t, In t todos -> completed t = VBool true ->
                In t (completed_todos todos))
  /\ (forall t, completed t = VBool false -> ~ In t (completed_todos todos)).
Proof.
  intros Hnet Hok Hst Hb Hobj.
  assert (Hin : forall t, In t (completed_todos todos) <->
                          In t todos /\ truthy (completed t) = true)
    by (intros t; exact (filter_In (fun todo => truthy (completed todo)) t todos)).
  split; [|split; [|split; [|split; [|split]]]].
  - unfold getAllTodos. rewrite bind_console_log. unfold bind at 1.
    rewrite (makeRequest_returns_body _ _ r (VArr todos));
      try assumption; [|now rewrite next_outcome_after_log].
    reflexivity.
  - unfold getCompletedTodos. rewrite bind_console_log. unfold bind at 1.
    rewrite (makeRequest_returns_body _ _ r (VArr todos));
      try assumption; [|now rewrite next_outcome_after_log].
    unfold bind at 1. cbn [array_filter]. unfold bind at 1.
    rewrite (filter_elems_objects _ _ Hobj). reflexivity.
  - apply filter_sublist.
  - exact Hin.
  - intros t Hin' Hc. apply Hin. split; [assumption|]. now rewrite Hc.
  - intros t Hc Hin'. apply Hin in Hin'. destruct Hin' as [_ Ht].
    rewrite Hc in Ht. discriminate.
Qed.

(* ================================================================== *)
(** * Where a sequence of calls stops *)
(* ================================================================== *)

Lemma stops_bind_here {A B} k (m : M A) (f : A -> M B) :
  stops k m -> stops k (bind m f).
Proof.
  intros Hm w Hk. destruct (Hm w Hk) as (Hnr & Hle & Hthrow).
  unfold bind. destruct (m w) as [[x|e|] w1]; simpl in *.
  - now destruct (Hnr x).
  - split; [discriminate|]. split; [assumption|]. eauto.
  - split; [discriminate|]. split; [assumption|].
    intros Heq. destruct (Hthrow Heq) as [e He]. discriminate.
Qed.

Lemma stops_bind_uses0 {A B} k (m : M A) (f : A -> M B) :
  uses 0 m -> (forall x, stops k (f x)) -> stops k (bind m f).
Proof.
  intros Hm Hf w Hk. destruct (Hm w) as (evs & Hs & Hle & _).
  assert (H0 : List.length (requests evs) = 0) by lia.
  assert (Hsent : sent (extend w evs) = sent w)
    by (rewrite sent_extend; lia).
  unfold bind. destruct (m w) as [[x|e|] w1]; simpl in *; subst w1.
  - rewrite <- Hsent. apply Hf. now rewrite net_extend, Hsent.
  - rewrite Hsent. split; [discriminate|]. split; [lia|]. intros; lia.
  - rewrite Hsent. split; [discriminate|]. split; [lia|]. intros; lia.
Qed.

Lemma stops_bind_uses1 {A B} k (m : M A) (f : A -> M B) :
  uses 1 m -> (forall x, stops k (f x)) -> stops (S k) (bind m f).
Proof.
  intros Hm Hf w Hk. destruct (Hm w) as (evs & Hs & Hle & Hret & _).
  assert (Hsent : sent (extend w evs) = sent w + List.length (requests evs))
    by apply sent_extend.
  unfold bind. destruct (m w) as [[x|e|] w1]; simpl in *; subst w1.
  - specialize (Hret x eq_refl).
    assert (Hk' : failing (net (extend w evs) (sent (extend w evs) + k)) = true).
    { rewrite net_extend, Hsent, Hret.
      now replace (sent w + 1 + k) with (sent w + S k) by lia. }
    destruct (Hf x _ Hk') as (Hnr & Hle' & Hthrow).
    split; [assumption|]. split; [lia|].
    intros Heq. apply Hthrow. lia.
  - split; [discriminate|]. split; [lia|]. intros; lia.
  - split; [discriminate|]. split; [lia|]. intros; lia.
Qed.

Lemma stops_makeRequest url options :
  options <> VNull -> stops 0 (makeRequest url options).
Proof.
  intros Hnull w. rewrite Nat.add_0_r. intros Hk.
  rewrite makeRequest_run by assumption. cbv zeta.
  destruct (net w (sent w)) as [r|e|]; simpl in Hk; [|idtac|discriminate].
  - destruct (negb (ok r)); simpl in Hk.
    + cbn [fst snd]. rewrite sent_extend. simpl.
      split; [discriminate|]. split; [lia|]. eauto.
    + destruct (status r =? 204)%Z; simpl in Hk; [discriminate|].
      destruct (body r); try discriminate.
      cbn [fst snd]. rewrite sent_extend. simpl.
      split; [discriminate|]. split; [lia|]. eauto.
  - cbn [fst snd]. rewrite sent_extend. simpl.
    split; [discriminate|]. split; [lia|]. eauto.
Qed.

(** A wrapper stops at its own request. *)
Ltac stops_wrapper :=
  repeat (apply stops_bind_uses0; [solve [auto with uses]|intros ?]);
  apply stops_bind_here; apply stops_makeRequest; discriminate.

Lemma stops_getAllPosts : stops 0 getAllPosts.
Proof. unfold getAllPosts. stops_wrapper. Qed.

Lemma stops_getPost id : stops 0 (getPost id).
Proof. unfold getPost. stops_wrapper. Qed.

Lemma stops_getPostsByUser userId : stops 0 (getPostsByUser userId).
Proof. unfold getPostsByUser. stops_wrapper. Qed.

Lemma stops_createPost postData : stops 0 (createPost postData).
Proof. unfold createPost. stops_wrapper. Qed.

Lemma stops_updatePost id postData : stops 0 (updatePost id postData).
Proof. unfold updatePost. stops_wrapper. Qed.

Lemma stops_patchPost id partialData : stops 0 (patchPost id partialData).
Proof. unfold patchPost. stops_wrapper. Qed.

Lemma stops_deletePost id : stops 0 (deletePost id).
Proof. unfold deletePost. stops_wrapper. Qed.

Lemma stops_getAllComments : stops 0 getAllComments.
Proof. unfold getAllComments. stops_wrapper. Qed.

Lemma stops_getCommentsForPost postId : stops 0 (getCommentsForPost postId).
Proof. unfold getCommentsForPost. stops_wrapper. Qed.

Lemma stops_getAllUsers : stops 0 getAllUsers.
Proof. unfold getAllUsers. stops_wrapper. Qed.

Lemma stops_getUser id : stops 0 (getUser id).
Proof. unfold getUser. stops_wrapper. Qed.

Lemma stops_getUserAlbums userId : stops 0 (getUserAlbums userId).
Proof. unfold getUserAlbums. stops_wrapper. Qed.

Lemma stops_getUserTodos userId : stops 0 (getUserTodos userId).
Proof. unfold getUserTodos. stops_wrapper. Qed.

Lemma stops_getAllAlbums : stops 0 getAllAlbums.
Proof. unfold getAllAlbums. stops_wrapper. Qed.

Lemma stops_getAlbumPhotos albumId : stops 0 (getAlbumPhotos albumId).
Proof. unfold getAlbumPhotos. stops_wrapper. Qed.

Lemma stops_getAllPhotos : stops 0 getAllPhotos.
Proof. unfold getAllPhotos. stops_wrapper. Qed.

Lemma stops_getAllTodos : stops 0 getAllTodos.
Proof. unfold getAllTodos. stops_wrapper. Qed.

Lemma stops_getCompletedTodos : stops 0 getCompletedTodos.
Proof. unfold getCompletedTodos. stops_wrapper. Qed.

#[export] Hint Resolve stops_getAllPosts stops_getPost stops_getPostsByUser
  stops_createPost stops_updatePost stops_patchPost stops_deletePost
  stops_getAllComments stops_getCommentsForPost stops_getAllUsers stops_getUser
  stops_getUserAlbums stops_getUserTodos stops_getAllAlbums stops_getAlbumPhotos
  stops_getAllPhotos stops_getAllTodos stops_getCompletedTodos : wrappers.

(* ================================================================== *)
(** * The demo drivers *)
(* ================================================================== *)

(** Walking a driver's [try] block: steps without a request are passed,
    a wrapper is either the one that fails or one request further. *)
Ltac uses_walk :=
  repeat first
    [ apply uses_bind_0; [solve [uses0]|intros ?]
    | apply uses_bind_1; [solve [auto with wrappers]|intros ?] ];
  uses0.

Ltac stops_walk :=
  repeat first
    [ apply stops_bind_uses0; [solve [uses0]|intros ?]
    | apply stops_bind_here; solve [auto with wrappers]
    | apply stops_bind_uses1; [solve [auto with wrappers]|intros ?] ].

Lemma uses_quickTest_try : uses 4 quickTest_try.
Proof. unfold quickTest_try. uses_walk. Qed.

Lemma uses_runFullDemo_try rate : uses 14 (runFullDemo_try rate).
Proof. unfold runFullDemo_try. uses_walk. Qed.

Lemma stops_quickTest_try k : k < 4 -> stops k quickTest_try.
Proof.
  intros Hk. unfold quickTest_try.
  do 4 (destruct k as [|k]; [stops_walk|]). lia.
Qed.

Lemma stops_runFullDemo_try rate k : k < 14 -> stops k (runFullDemo_try rate).
Proof.
  intros Hk. unfold runFullDemo_try.
  do 14 (destruct k as [|k]; [stops_walk|]). lia.
Qed.

Lemma runFullDemo_run rate w :
  runFullDemo rate w =
  match runFullDemo_try rate (extend w runFullDemo_banner) with
  | (Return _, w1) => (Return VUndef, w1)
  | (Throw e, w1) => (Return VUndef, extend w1 [LogError "❌ Demo failed:" e])
  | (Pending, w1) => (Pending, w1)
  end.
Proof.
  unfold runFullDemo. rewrite !bind_console_log, extend_extend.
  unfold bind, try_catch, runFullDemo_banner. cbn [app].
  destruct (runFullDemo_try rate _) as [[[]|e|] w1]; reflexivity.
Qed.

Lemma quickTest_run w :
  quickTest w =
  match quickTest_try (extend w quickTest_banner) with
  | (Return _, w1) => (Return VUndef, w1)
  | (Throw e, w1) =>
      (Return VUndef, extend w1 [LogError "❌ Quick test failed:" e])
  | (Pending, w1) => (Pending, w1)
  end.
Proof.
  unfold quickTest. rewrite !bind_console_log.
  unfold bind, try_catch, quickTest_banner.
  destruct (quickTest_try _) as [[[]|e|] w1]; reflexivity.
Qed.

(** A driver is its [try] block run after a banner without requests, with
    the failure summary as handler. *)
Section Driver.

Variables (label : string) (banner : list event) (block : M unit).
Variable driver : M value.

Hypothesis banner_quiet : requests banner = [].

Hypothesis driver_run : forall w,
  driver w =
  match block (extend w banner) with
  | (Return _, w1) => (Return VUndef, w1)
  | (Throw e, w1) => (Return VUndef, extend w1 [LogError label e])
  | (Pending, w1) => (Pending, w1)
  end.

Lemma sent_after_banner w : sent (extend w banner) = sent w.
Proof. rewrite sent_extend, banner_quiet. simpl. lia. Qed.

Lemma driver_never_throws w e : fst (driver w) <> Throw e.
Proof.
  rewrite driver_run. destruct (block _) as [[[]|e'|] w1]; discriminate.
Qed.

Lemma driver_catches w e w1 :
  block (extend w banner) = (Throw e, w1) ->
  driver w = (Return VUndef, extend w1 [LogError label e]).
Proof. intros H. now rewrite driver_run, H. Qed.

End Driver.

(* ================================================================== *)
(** * Sample runs *)
(* ================================================================== *)

(** [quickTest] when the third request is answered with status 500: the
    fourth wrapper is never called. *)
Example quickTest_third_fails_run :
  quickTest third_fails
  = (Return VUndef,
     extend third_fails
       [Log ("⚡ Running Quick Test..." ++ nl);
        Log "📄 Fetching post 1...";
        Fetch "https://jsonplaceholder.typicode.com/posts/1"
          (VObj [("headers", VObj [("Content-Type", VStr "application/json")])]);
        ReadJson;
        Log ("✅ Retrieved post: " ++ dq ++ "a" ++ dq);
        Log "✅ GET request successful";
        Log "📝 Creating new post...";
        Fetch "https://jsonplaceholder.typicode.com/posts"
          (VObj [("headers", VObj [("Content-Type", VStr "application/json")]);
                 ("method", VStr "POST");
                 ("body",
                  JSON_stringify
                    (VObj [("title", VStr "Quick Test Post");
                           ("body", VStr "Testing POST request");
                           ("userId", VNum 99)]))]);
        ReadJson;
        Log "✅ Created post with ID: undefined";
        Log "✅ POST request successful";
        Log "👤 Fetching posts by user 1...";
        Fetch "https://jsonplaceholder.typicode.com/posts?userId=1"
          (VObj [("headers", VObj [("Content-Type", VStr "application/json")])]);
        LogError "API Request failed:" (Error "HTTP error! status: 500");
        LogError "❌ Quick test failed:" (Error "HTTP error! status: 500")]).
Proof. reflexivity. Qed.

(** Numbers beyond [2^53] are printed as JavaScript prints them: the
    shortest digits of the nearest double, in exponent form from [10^21]
    on. *)
Example string_of_Z_large :
  string_of_Z (2 ^ 53 + 1) = "9007199254740992"
  /\ string_of_Z (2 ^ 60) = "1152921504606847000"
  /\ string_of_Z (10 ^ 21) = "1e+21"
  /\ string_of_Z (- 10 ^ 20) = "-100000000000000000000"
  /\ string_of_Z 123456789012345678901234567890 = "1.2345678901234568e+29"
  /\ string_of_Z (2 ^ 1024) = "Infinity".
Proof. vm_compute. repeat split. Qed.

(** [updatePost(1e21, {id: 2 ** 60})]: the URL and the body carry the
    numbers as JavaScript prints them. *)
Example updatePost_large_numbers :
  requests
    (trace (snd (updatePost (VNum (10 ^ 21)) (VObj [("id", VNum (2 ^ 60))])
                   silent_network)))
  = [("https://jsonplaceholder.typicode.com/posts/1e+21",
      VObj [("headers", VObj [("Content-Type", VStr "application/json")]);
            ("method", VStr "PUT");
            ("body",
             VStr ("{" ++ dq ++ "id" ++ dq ++ ":1152921504606847000}"))])].
Proof. vm_compute. reflexivity. Qed.

(** [makeRequest(url, null)] throws before any request is made. *)
Example makeRequest_null_options :
  makeRequest "https://jsonplaceholder.typicode.com/posts" VNull (world_of [])
  = (Throw TypeError,
     extend (world_of []) [LogError "API Request failed:" TypeError]).
Proof. reflexivity. Qed.

(** Headers given by the caller reach [fetch] whole; a caller that sets
    [Content-Type] has its own value sent. *)
Example request_init_caller_content_type :
  request_init
    (VObj [("method", VStr "POST");
           ("headers", VObj [("Content-Type", VStr "text/plain")])])
  = VObj [("headers", VObj [("Content-Type", VStr "text/plain")]);
          ("method", VStr "POST")].
Proof. reflexivity. Qed.

(** A wrapper whose argument has no string conversion throws at its first
    template literal. *)
Example getPost_unprintable_id :
  getPost (VObj [("toString", VNum 1)]) always_500 = (Throw TypeError, always_500).
Proof. reflexivity. Qed.

(** [getCompletedTodos] keeps a todo whose flag is truthy without being
    [true], and drops one that has no flag. *)
Example getCompletedTodos_truthy_flags :
  fst (getCompletedTodos
         (world_of
            [respond 200
               (VArr [VObj [("completed", VNum 1)]; VObj [];
                      VObj [("completed", VBool false)];
                      VObj [("completed", VStr "no")]])]))
  = Return (VArr [VObj [("completed", VNum 1)]; VObj [("completed", VStr "no")]]).
Proof. reflexivity. Qed.

Lemma makeRequest_204_witness :
  let url := "https://jsonplaceholder.typicode.com/posts/1" in
  let options := VObj [("method", VStr "DELETE")] in
  let w := world_of [Responds no_content] in
  (options <> VNull /\ net w (sent w) = Responds no_content
   /\ status no_content = 204%Z)
  /\ makeRequest url options w
     = (Return (VObj [("success", VBool true)]),
        extend w [Fetch url (request_init options)])
  /\ ~ In ReadJson [Fetch url (request_init options)].
Proof.
  intros url options w.
  assert (H1 : options <> VNull) by discriminate.
  assert (H2 : net w (sent w) = Responds no_content) by reflexivity.
  assert (H3 : status no_content = 204%Z) by reflexivity.
  split; [auto|]. exact (makeRequest_204 url options w no_content H1 H2 H3).
Defined.

Lemma makeRequest_http_failure_witness :
  let url := "https://jsonplaceholder.typicode.com/posts/0" in
  let w := world_of [Responds not_found] in
  (VUndef <> VNull /\ net w (sent w) = Responds not_found
   /\ (status not_found < 200 \/ 299 < status not_found)%Z)
  /\ makeRequest url VUndef w
     = (Throw (Error "HTTP error! status: 404"),
        extend w [Fetch url (request_init VUndef);
                  LogError "API Request failed:"
                    (Error "HTTP error! status: 404")]).
Proof.
  intros url w.
  assert (H1 : VUndef <> VNull) by discriminate.
  assert (H2 : net w (sent w) = Responds not_found) by reflexivity.
  assert (H3 : (status not_found < 200 \/ 299 < status not_found)%Z)
    by (right; reflexivity).
  split; [auto|]. exact (makeRequest_http_failure url VUndef w not_found H1 H2 H3).
Defined.

Lemma getCompletedTodos_filters_witness :
  let r := {| status := 200; body := Parses (VArr two_todos) |} in
  let w := world_of [Responds r] in
  fst (getAllTodos w) = Return (VArr two_todos)
  /\ fst (getCompletedTodos w)
     = Return (VArr [VObj [("id", VNum 1); ("title", VStr "a");
                           ("completed", VBool true)]]).
Proof.
  intros r w.
  assert (H1 : net w (sent w) = Responds r) by reflexivity.
  assert (H2 : ok r = true) by reflexivity.
  assert (H3 : status r <> 204%Z) by discriminate.
  assert (H4 : body r = Parses (VArr two_todos)) by reflexivity.
  assert (H5 : Forall (fun t => is_object t = true) two_todos)
    by (repeat constructor).
  destruct (getCompletedTodos_filters w r two_todos H1 H2 H3 H4 H5)
    as (Hall & Hdone & _).
  split; [exact Hall|exact Hdone].
Defined.

Lemma updatePost_body_id_is_postData_id_witness :
  let ps := [("id", VNum 7); ("title", VStr "t")] in
  (distinct_keys ps = true /\ lookup "id" ps = Some (VNum 7))
  /\ get (VObj (spread [("id", VNum 5)] (VObj ps))) "id" = Some (VNum 7)
  /\ requests (trace (snd (updatePost (VNum 5) (VObj ps) always_500)))
     = [("https://jsonplaceholder.typicode.com/posts/5",
         VObj [("headers", VObj [("Content-Type", VStr "application/json")]);
               ("method", VStr "PUT");
               ("body",
                JSON_stringify (VObj [("id", VNum 7); ("title", VStr "t")]))])].
Proof.
  intros ps.
  assert (H1 : distinct_keys ps = true) by reflexivity.
  assert (H2 : lookup "id" ps = Some (VNum 7)) by reflexivity.
  split; [auto|].
  exact (updatePost_body_id_is_postData_id (VNum 5) ps (VNum 7) always_500 H1 H2).
Defined.

(* ================================================================== *)
(** * Further properties of the request helper *)
(* ================================================================== *)

Lemma makeRequest_null url w :
  makeRequest url VNull w
  = (Throw TypeError, extend w [LogError "API Request failed:" TypeError]).
Proof. reflexivity. Qed.

(** X1.  Whatever [makeRequest] throws, it has logged: when a call throws
    [e] (a rejected [fetch], a status outside 200..299, a body that does
    not parse, or the [TypeError] of [null] options), its last event is
    [console.error('API Request failed:', e)] with that same [e], and it is
    the only error logged; a call that does not throw logs no error. *)
Theorem makeRequest_logs_what_it_throws url options w :
  exists evs,
    snd (makeRequest url options w) = extend w evs
    /\ match fst (makeRequest url options w) with
       | Throw e =>
           exists evs',
             evs = (evs' ++ [LogError "API Request failed:" e])%list
             /\ logged_errors evs' = []
       | _ => logged_errors evs = []
       end.
Proof.
  assert (Hcases : options = VNull \/ options <> VNull)
    by (destruct options; auto; right; discriminate).
  destruct Hcases as [->|Hnull].
  - rewrite makeRequest_null. eexists; split; [reflexivity|].
    now exists [].
  - rewrite makeRequest_run by assumption. cbv zeta.
    destruct (net w (sent w)) as [r|e|];
      [destruct (negb (ok r));
       [|destruct (status r =? 204)%Z; [|destruct (body r)]]| |];
      (eexists; split; [reflexivity|]); cbn [fst]; try reflexivity.
    + now exists [Fetch url (request_init options)].
    + now exists [Fetch url (request_init options); ReadJson].
    + now exists [Fetch url (request_init options)].
Qed.

(** X2.  [makeRequest] never retries: a call makes exactly one call of
    [fetch], for the URL it was given, whether that call succeeds, fails or
    never settles; with [null] options it makes none. *)
Theorem makeRequest_never_retries url options w :
  requests (trace (snd (makeRequest url options w)))
  = (requests (trace w)
       ++ match options with
          | VNull => []
          | _ => [(url, request_init options)]
          end)%list.
Proof.
  destruct options;
    try (apply requests_makeRequest; discriminate).
  rewrite makeRequest_null. cbn [snd].
  now rewrite trace_extend, requests_app.
Qed.

(** X3.  [makeRequest] returns a value in two cases only: the response has
    status 204 and the value is [{success: true}], or the response has
    another status in 200..299 and the value is what its body parses to. *)
Theorem makeRequest_returns_iff url options w v :
  options <> VNull ->
  fst (makeRequest url options w) = Return v
  <-> exists r,
        net w (sent w) = Responds r
        /\ ok r = true
        /\ ((status r = 204%Z /\ v = success_marker)
            \/ (status r <> 204%Z /\ body r = Parses v)).
Proof.
  intros Hnull. rewrite makeRequest_run by assumption. cbv zeta. split.
  - destruct (net w (sent w)) as [r|e|]; try discriminate.
    destruct (ok r) eqn:Hok; cbn [negb]; try discriminate.
    destruct (Z.eqb_spec (status r) 204) as [Hst|Hst].
    + cbn [fst]. intros [= <-]. exists r. auto.
    + destruct (body r) eqn:Hb; cbn [fst]; try discriminate.
      intros [= <-]. exists r. auto.
  - intros (r & -> & -> & [[Hst ->]|[Hst Hb]]); cbn [negb].
    + rewrite Hst. reflexivity.
    + destruct (Z.eqb_spec (status r) 204); [contradiction|].
      now rewrite Hb.
Qed.

(** X4.  Every property of the options object reaches [fetch] unchanged,
    [headers] included; an options object without [headers] gets exactly
    the default header, and no other property is added. *)
Theorem makeRequest_passes_options url ps w :
  distinct_keys ps = true ->
  let init := request_init (VObj ps) in
  requests (trace (snd (makeRequest url (VObj ps) w)))
  = (requests (trace w) ++ [(url, init)])%list
  /\ (forall k v, lookup k ps = Some v -> get init k = Some v)
  /\ (lookup "headers" ps = None ->
      get init "headers"
      = Some (VObj [("Content-Type", VStr "application/json")]))
  /\ (forall k, lookup k ps = None -> k <> "headers" ->
      get init k = Some VUndef).
Proof.
  intros Hd init. split; [|split; [|split]].
  - apply requests_makeRequest. discriminate.
  - intros k v Hk. unfold init, request_init. cbn [get].
    now rewrite (lookup_spread_hit _ _ _ _ Hd Hk).
  - intros Hh. unfold init, request_init. cbn [get].
    rewrite (lookup_spread_miss _ _ _ Hh), Hh. reflexivity.
  - intros k Hk Hne. unfold init, request_init. cbn [get].
    rewrite (lookup_spread_miss _ _ _ Hk). cbn [lookup].
    destruct ("headers" =? k) eqn:E; [|reflexivity].
    apply String.eqb_eq in E. now subst k.
Qed.

(* ================================================================== *)
(** * Further properties of the wrappers *)
(* ================================================================== *)

Lemma bind_returns {A B} (m : M A) (f : A -> M B) w v w' :
  m w = (Return v, w') -> bind m f w = f v w'.
Proof. unfold bind. now intros ->. Qed.

Lemma bind_throws {A B} (m : M A) (f : A -> M B) w e w' :
  m w = (Throw e, w') -> bind m f w = (Throw e, w').
Proof. unfold bind. now intros ->. Qed.

Lemma bind_Return_inv {A B} (m : M A) (f : A -> M B) w b :
  fst (bind m f w) = Return b ->
  exists a w', m w = (Return a, w') /\ fst (f a w') = Return b.
Proof.
  unfold bind. destruct (m w) as [[a|e|] w']; try discriminate. eauto.
Qed.

(** On a failing outcome [makeRequest] throws the error of the outcome,
    logged last. *)
Lemma makeRequest_failing url options w :
  options <> VNull ->
  failing (net w (sent w)) = true ->
  let e := error_of (net w (sent w)) in
  exists evs,
    makeRequest url options w
    = (Throw e, extend w (evs ++ [LogError "API Request failed:" e])).
Proof.
  intros Hnull Hf. rewrite makeRequest_run by assumption. cbv zeta.
  destruct (net w (sent w)) as [r|e|]; cbn [failing error_of] in *;
    [|now exists [Fetch url (request_init options)]|discriminate].
  destruct (negb (ok r)); [now exists [Fetch url (request_init options)]|].
  destruct (status r =? 204)%Z; [discriminate|].
  destruct (body r); try discriminate.
  now exists [Fetch url (request_init options); ReadJson].
Qed.

Lemma makeRequest_Return_inv url options w v :
  options <> VNull ->
  fst (makeRequest url options w) = Return v ->
  exists r,
    net w (sent w) = Responds r
    /\ ok r = true
    /\ ((status r = 204%Z /\ v = success_marker)
        \/ (status r <> 204%Z /\ body r = Parses v)).
Proof.
  intros Hnull. rewrite makeRequest_run by assumption. cbv zeta.
  destruct (net w (sent w)) as [r|e|]; try discriminate.
  destruct (ok r) eqn:Hok; cbn [negb]; try discriminate.
  destruct (Z.eqb_spec (status r) 204) as [Hst|Hst].
  - cbn [fst]. intros [= <-]. exists r. auto.
  - destruct (body r) eqn:Hb; cbn [fst]; try discriminate.
    intros [= <-]. exists r. auto.
Qed.

Lemma options_of_not_null wr : options_of wr <> VNull.
Proof. destruct wr; discriminate. Qed.

Lemma returns_only_ret {A} (x : A) : returns_only x (ret x).
Proof. intros w a [= <-]. reflexivity. Qed.

Lemma returns_only_bind {A B} (x : B) (m : M A) (f : A -> M B) :
  (forall y, returns_only x (f y)) -> returns_only x (bind m f).
Proof.
  intros Hf w a Ha. apply bind_Return_inv in Ha.
  destruct Ha as (y & w' & _ & Hy). exact (Hf y w' a Hy).
Qed.

Ltac unfold_wrappers :=
  unfold call, getAllPosts, getPost, getPostsByUser, createPost, updatePost,
    patchPost, deletePost, getAllComments, getCommentsForPost, getAllUsers,
    getUser, getUserAlbums, getUserTodos, getAllAlbums, getAlbumPhotos,
    getAllPhotos, getAllTodos, getCompletedTodos.

(** From [url_of wr = Some u]: the argument converts, and [u] is the URL. *)
Ltac url_known Hu :=
  cbn [url_of option_map] in Hu;
  try match type of Hu with
      | context [ToString ?v] =>
          let Hs := fresh "Hs" in
          destruct (ToString v) eqn:Hs; cbn [option_map] in Hu;
          [|discriminate Hu]
      end;
  injection Hu as <-.

(** Up to the call of [makeRequest]: conversions and the first log. *)
Ltac to_makeRequest :=
  unfold_wrappers;
  try match goal with
      | Hs : ToString _ = Some _ |- _ => rewrite !(str_Some _ _ Hs)
      end;
  repeat first [rewrite bind_ret | rewrite bind_console_log].

(** Every wrapper is one log line, the call of [makeRequest], and a
    post-processing of its result that, [getCompletedTodos] apart, can only
    return that result. *)
Lemma call_shape wr u :
  url_of wr = Some u ->
  exists s post,
    (forall w,
       call wr w
       = bind (makeRequest u (options_of wr)) post (extend w [Log s]))
    /\ (wr <> GetCompletedTodos -> forall v, returns_only v (post v)).
Proof.
  intros Hu.
  destruct wr; url_known Hu; eexists; eexists;
    (split;
     [ intros w; to_makeRequest; reflexivity
     | intros Hne v; try (now destruct Hne);
       repeat (apply returns_only_bind; intros ?); apply returns_only_ret ]).
Qed.

Lemma call_no_url wr w :
  url_of wr = None -> call wr w = (Throw TypeError, w).
Proof.
  intros Hu.
  destruct wr; cbn [url_of option_map] in Hu; try discriminate Hu;
    match type of Hu with
    | context [ToString ?v] =>
        let Hs := fresh "Hs" in
        destruct (ToString v) eqn:Hs; cbn [option_map] in Hu;
        [discriminate Hu|]; unfold_wrappers; rewrite !(str_None _ Hs)
    end; reflexivity.
Qed.

(** A wrapper whose request fails throws the error of [makeRequest]. *)
Lemma call_rethrows wr u w :
  url_of wr = Some u ->
  failing (net w (sent w)) = true ->
  let e := error_of (net w (sent w)) in
  exists evs,
    call wr w = (Throw e, extend w (evs ++ [LogError "API Request failed:" e])).
Proof.
  intros Hu Hf e. destruct (call_shape wr u Hu) as (s & post & Hrun & _).
  rewrite Hrun.
  assert (Hnext := next_outcome_after_log w s).
  destruct (makeRequest_failing u (options_of wr) (extend w [Log s]))
    as (evs & Hmr).
  { apply options_of_not_null. }
  { now rewrite Hnext. }
  rewrite Hnext in Hmr. fold e in Hmr.
  rewrite (bind_throws _ _ _ _ _ Hmr), extend_extend.
  now exists (Log s :: evs).
Qed.

(** X5.  A wrapper returns what the helper returned, unmodified: when a
    wrapper other than [getCompletedTodos] returns [v], the response to
    its request had a status in 200..299 and [v] is what its body parses
    to, or [{success: true}] for status 204. *)
Theorem wrappers_return_response wr w v :
  wr <> GetCompletedTodos ->
  fst (call wr w) = Return v ->
  exists r,
    net w (sent w) = Responds r
    /\ ok r = true
    /\ ((status r = 204%Z /\ v = success_marker)
        \/ (status r <> 204%Z /\ body r = Parses v)).
Proof.
  intros Hne Hret. destruct (url_of wr) as [u|] eqn:Hu.
  - destruct (call_shape wr u Hu) as (s & post & Hrun & Honly).
    rewrite Hrun in Hret. apply bind_Return_inv in Hret.
    destruct Hret as (x & w' & Hmr & Hpost).
    apply (Honly Hne) in Hpost. subst x.
    rewrite <- (next_outcome_after_log w s).
    apply (makeRequest_Return_inv u (options_of wr));
      [apply options_of_not_null|now rewrite Hmr].
  - rewrite (call_no_url _ _ Hu) in Hret. discriminate.
Qed.

(** X6.  Wrappers neither catch nor wrap errors: when the request of a
    wrapper call fails (rejected [fetch], status outside 200..299, body
    that does not parse), the call throws the very error [makeRequest]
    threw, and the last event is [makeRequest]'s log of it: the wrapper
    logs no result line. *)
Theorem wrappers_rethrow wr u w :
  url_of wr = Some u ->
  failing (net w (sent w)) = true ->
  let e := error_of (net w (sent w)) in
  fst (call wr w) = Throw e
  /\ exists t,
       trace (snd (call wr w))
       = (t ++ [LogError "API Request failed:" e])%list.
Proof.
  intros Hu Hf e. destruct (call_rethrows wr u w Hu Hf) as (evs & Hrun).
  fold e in Hrun. rewrite Hrun. split; [reflexivity|].
  cbn [snd]. rewrite trace_extend. exists (trace w ++ evs)%list.
  now rewrite app_assoc.
Qed.

(** Running a wrapper whose request is answered by [r]: the run of
    [makeRequest] after the first log line. *)
Ltac answer_with Hnet :=
  to_makeRequest; unfold bind at 1;
  rewrite makeRequest_run by discriminate; cbv zeta;
  rewrite next_outcome_after_log, Hnet.

(** X7.  A response with status 204 makes every wrapper return
    [{success: true}], the ones that log a count or a title included
    (they log [undefined]); [getCompletedTodos] alone throws [TypeError],
    since the marker has no [filter]. *)
Theorem wrappers_on_204 wr u w r :
  url_of wr = Some u ->
  net w (sent w) = Responds r ->
  status r = 204%Z ->
  fst (call wr w)
  = match wr with
    | GetCompletedTodos => Throw TypeError
    | _ => Return success_marker
    end.
Proof.
  intros Hu Hnet Hst.
  destruct wr; url_known Hu; answer_with Hnet;
    unfold ok; rewrite Hst; reflexivity.
Qed.

(** X8.  A successful response whose body is the JSON value [null] makes
    every wrapper that reads its result throw [TypeError] after the request
    was made; [updatePost], [patchPost] and [deletePost], which only pass
    the result on, return [null]. *)
Theorem wrappers_on_null_body wr u w r :
  url_of wr = Some u ->
  net w (sent w) = Responds r ->
  ok r = true ->
  status r <> 204%Z ->
  body r = Parses VNull ->
  fst (call wr w) = (if reads_result wr then Throw TypeError else Return VNull)
  /\ requests (trace (snd (call wr w)))
     = (requests (trace w) ++ [(u, request_init (options_of wr))])%list.
Proof.
  intros Hu Hnet Hok Hst Hb. split.
  - destruct (Z.eqb_spec (status r) 204) as [|_]; [contradiction|].
    destruct wr; url_known Hu; answer_with Hnet; rewrite Hok; cbn [negb];
      destruct (Z.eqb_spec (status r) 204) as [|_]; try contradiction;
      rewrite Hb; reflexivity.
  - rewrite call_requests. unfold requests_of. now rewrite Hu.
Qed.

Lemma filter_elems_run todos w :
  filter_elems (fun todo => prop todo "completed") todos w
  = (if existsb nullish todos then Throw TypeError
     else Return (completed_todos todos), w).
Proof.
  induction todos as [|t todos IH]; [reflexivity|].
  cbn [filter_elems existsb]. unfold bind at 1.
  destruct t; cbn [prop get or_TypeError ret throw nullish orb];
    try reflexivity;
    unfold bind at 1; rewrite IH; destruct (existsb nullish todos);
    reflexivity.
Qed.

(** X9.  What [getCompletedTodos] does with any successful [/todos]
    response: a body that is no array, or an array with a [null] element,
    makes it throw [TypeError]; otherwise it returns the elements whose
    [completed] property is truthy, so elements without the property, and
    elements that are numbers, strings or booleans, are dropped. *)
Theorem getCompletedTodos_result w r v :
  net w (sent w) = Responds r ->
  ok r = true ->
  status r <> 204%Z ->
  body r = Parses v ->
  fst (getCompletedTodos w)
  = match v with
    | VArr todos =>
        if existsb nullish todos then Throw TypeError
        else Return (VArr (completed_todos todos))
    | _ => Throw TypeError
    end.
Proof.
  intros Hnet Hok Hst Hb.
  unfold getCompletedTodos. rewrite bind_console_log.
  match goal with
  | |- context [bind (makeRequest ?url VUndef) _ ?w1] =>
      assert (Hmr := makeRequest_returns_body url w1 r v)
  end.
  rewrite next_outcome_after_log in Hmr.
  rewrite (bind_returns _ _ _ _ _ (Hmr Hnet Hok Hst Hb)).
  destruct v; try reflexivity.
  unfold bind at 1. cbn [array_filter]. unfold bind at 1.
  rewrite filter_elems_run. destruct (existsb nullish elems); reflexivity.
Qed.

(** X10.  The body of [updatePost(id, postData)] for an object [postData]
    holds every property of [postData] with its value, and [id]: the
    argument when [postData] has no [id] of its own.  It holds nothing
    else. *)
Theorem updatePost_payload id ps w :
  distinct_keys ps = true ->
  let payload := spread [("id", id)] (VObj ps) in
  requests (trace (snd (updatePost id (VObj ps) w)))
  = (requests (trace w)
       ++ match ToString id with
          | Some i =>
              [((API_BASE_URL ++ "/posts/" ++ i)%string,
                VObj [("headers",
                       VObj [("Content-Type", VStr "application/json")]);
                      ("method", VStr "PUT");
                      ("body", JSON_stringify (VObj payload))])]
          | None => []
          end)%list
  /\ (forall k v, lookup k ps = Some v -> lookup k payload = Some v)
  /\ (lookup "id" ps = None -> lookup "id" payload = Some id)
  /\ (forall k, lookup k ps = None -> k <> "id" -> lookup k payload = None).
Proof.
  intros Hd payload. split; [|split; [|split]].
  - change (updatePost id (VObj ps)) with (call (UpdatePost id (VObj ps))).
    rewrite call_requests. unfold requests_of, url_of.
    now destruct (ToString id).
  - intros k v Hk. now apply lookup_spread_hit.
  - intros Hk. unfold payload. rewrite (lookup_spread_miss _ _ _ Hk).
    reflexivity.
  - intros k Hk Hne. unfold payload. rewrite (lookup_spread_miss _ _ _ Hk).
    cbn [lookup]. destruct ("id" =? k) eqn:E; [|reflexivity].
    apply String.eqb_eq in E. now subst k.
Qed.

(* ================================================================== *)
(** * The order of the requests of a driver *)
(* ================================================================== *)

Lemma prefix_nil {A} (l : list A) : prefix [] l.
Proof. now exists l. Qed.

Lemma prefix_refl {A} (l : list A) : prefix l l.
Proof. exists []. now rewrite app_nil_r. Qed.

Lemma prefix_app {A} (q p l : list A) : prefix p l -> prefix (q ++ p) (q ++ l).
Proof. intros [rest ->]. exists rest. now rewrite app_assoc. Qed.

Lemma prefix_length {A} (p l : list A) :
  prefix p l -> List.length p <= List.length l.
Proof. intros [rest ->]. rewrite length_app. lia. Qed.

Lemma prefix_In {A} (p l : list A) x : prefix p l -> In x p -> In x l.
Proof. intros [rest ->] Hx. apply in_or_app. now left. Qed.

Lemma uses0_requests {A} (m : M A) w :
  uses 0 m -> requests (trace (snd (m w))) = requests (trace w).
Proof.
  intros Hm. destruct (Hm w) as (evs & Hs & Hle & _).
  rewrite Hs, trace_extend, requests_app.
  destruct (requests evs); [apply app_nil_r|simpl in Hle; lia].
Qed.

Lemma follows_uses0 {A} (m : M A) w : uses 0 m -> follows_at [] m w.
Proof.
  intros Hm. exists []. split; [apply prefix_nil|]. split; [|reflexivity].
  now rewrite app_nil_r, uses0_requests.
Qed.

Lemma follows_bind_uses0 {A B} qs (m : M A) (f : A -> M B) w :
  uses 0 m ->
  (forall a w', follows_at qs (f a) w') ->
  follows_at qs (bind m f) w.
Proof.
  intros Hm Hf. assert (Hreq := uses0_requests m w Hm).
  unfold follows_at, bind in *. destruct (m w) as [[a|e|] w1]; cbn [snd] in *.
  - destruct (Hf a w1) as (p & Hp & Hr & Hfull).
    exists p. now rewrite <- Hreq.
  - exists []. split; [apply prefix_nil|].
    split; [now rewrite app_nil_r|discriminate].
  - exists []. split; [apply prefix_nil|].
    split; [now rewrite app_nil_r|discriminate].
Qed.

Lemma follows_bind_call {A B} qs1 qs (m : M A) (f : A -> M B) w :
  (forall w, requests (trace (snd (m w))) = (requests (trace w) ++ qs1)%list) ->
  (forall a w', follows_at qs (f a) w') ->
  follows_at (qs1 ++ qs) (bind m f) w.
Proof.
  intros Hm Hf. assert (Hreq := Hm w).
  unfold follows_at, bind in *. destruct (m w) as [[a|e|] w1]; cbn [snd] in *.
  - destruct (Hf a w1) as (p & Hp & Hr & Hfull).
    exists (qs1 ++ p)%list. split; [now apply prefix_app|].
    split; [now rewrite Hr, Hreq, app_assoc|].
    intros b Hb. now rewrite (Hfull b Hb).
  - exists qs1. split; [exists qs; reflexivity|].
    split; [assumption|discriminate].
  - exists qs1. split; [exists qs; reflexivity|].
    split; [assumption|discriminate].
Qed.

Lemma follows_ret_bind {A B} qs (a : A) (f : A -> M B) w :
  follows_at qs (f a) w -> follows_at qs (bind (ret a) f) w.
Proof. intros H. exact H. Qed.

Lemma follows_throw_bind {A B} qs e (f : A -> M B) w :
  follows_at qs (bind (throw e) f) w.
Proof.
  exists []. split; [apply prefix_nil|].
  split; [now rewrite app_nil_r|discriminate].
Qed.

(** The wrapper call a term of the script is. *)
Ltac wrapper_of m :=
  lazymatch m with
  | getAllPosts => constr:(GetAllPosts)
  | getPost ?a => constr:(GetPost a)
  | getPostsByUser ?a => constr:(GetPostsByUser a)
  | createPost ?a => constr:(CreatePost a)
  | updatePost ?a ?b => constr:(UpdatePost a b)
  | patchPost ?a ?b => constr:(PatchPost a b)
  | deletePost ?a => constr:(DeletePost a)
  | getAllComments => constr:(GetAllComments)
  | getCommentsForPost ?a => constr:(GetCommentsForPost a)
  | getAllUsers => constr:(GetAllUsers)
  | getUser ?a => constr:(GetUser a)
  | getUserAlbums ?a => constr:(GetUserAlbums a)
  | getUserTodos ?a => constr:(GetUserTodos a)
  | getAllAlbums => constr:(GetAllAlbums)
  | getAlbumPhotos ?a => constr:(GetAlbumPhotos a)
  | getAllPhotos => constr:(GetAllPhotos)
  | getAllTodos => constr:(GetAllTodos)
  | getCompletedTodos => constr:(GetCompletedTodos)
  end.

(** One step along a [try] block whose plan is a list of [requests_of]. *)
Ltac follows_step :=
  lazymatch goal with
  | |- follows_at _ (bind (ret _) _) _ => apply follows_ret_bind
  | |- follows_at _ (bind ?m _) _ =>
      first
        [ apply follows_bind_uses0; [solve [uses0]|intros ? ?]
        | let wr := wrapper_of m in
          apply (follows_bind_call (requests_of wr));
          [intros ?; exact (call_requests wr _)|intros ? ?] ]
  | |- follows_at [] _ _ => apply follows_uses0; solve [uses0]
  end.

Lemma quickTest_try_follows w :
  follows_at (plan quickTest_calls) quickTest_try w.
Proof.
  unfold quickTest_try. cbn [plan quickTest_calls flat_map].
  repeat follows_step.
Qed.

Lemma follows_some_bind_uses0 {A B} (qs : value -> list (string * value))
  (m : M A) (f : A -> M B) w :
  uses 0 m ->
  (forall a w', exists i, follows_at (qs i) (f a) w') ->
  exists i, follows_at (qs i) (bind m f) w.
Proof.
  intros Hm Hf. assert (Hreq := uses0_requests m w Hm).
  unfold follows_at, bind in *. destruct (m w) as [[a|e|] w1]; cbn [snd] in *.
  - destruct (Hf a w1) as (i & p & Hp & Hr & Hfull).
    exists i, p. now rewrite <- Hreq.
  - exists VUndef, []. split; [apply prefix_nil|].
    split; [now rewrite app_nil_r|discriminate].
  - exists VUndef, []. split; [apply prefix_nil|].
    split; [now rewrite app_nil_r|discriminate].
Qed.

Lemma follows_some_bind_call {A B} qs1 (qs : value -> list (string * value))
  (m : M A) (f : A -> M B) w :
  (forall w, requests (trace (snd (m w))) = (requests (trace w) ++ qs1)%list) ->
  (forall a w', exists i, follows_at (qs i) (f a) w') ->
  exists i, follows_at (qs1 ++ qs i) (bind m f) w.
Proof.
  intros Hm Hf. assert (Hreq := Hm w).
  unfold follows_at, bind in *. destruct (m w) as [[a|e|] w1]; cbn [snd] in *.
  - destruct (Hf a w1) as (i & p & Hp & Hr & Hfull).
    exists i, (qs1 ++ p)%list. split; [now apply prefix_app|].
    split; [now rewrite Hr, Hreq, app_assoc|].
    intros b Hb. now rewrite (Hfull b Hb).
  - exists VUndef, qs1. split; [exists (qs VUndef); reflexivity|].
    split; [assumption|discriminate].
  - exists VUndef, qs1. split; [exists (qs VUndef); reflexivity|].
    split; [assumption|discriminate].
Qed.

(** One step while the identifier the plan depends on is not known yet. *)
Ltac follows_some_step :=
  lazymatch goal with
  | |- exists i, follows_at (@?qs i) (bind ?m _) _ =>
      first
        [ apply (follows_some_bind_uses0 qs); [solve [uses0]|intros ? ?]
        | let wr := wrapper_of m in
          lazymatch goal with
          | |- exists i, follows_at (_ ++ @?rest i)%list _ _ =>
              apply (follows_some_bind_call (requests_of wr) rest);
              [intros ?; exact (call_requests wr _)|intros ? ?]
          end ]
  end.

Lemma runFullDemo_try_follows rate w :
  exists i, follows_at (plan (runFullDemo_calls i)) (runFullDemo_try rate) w.
Proof.
  unfold runFullDemo_try, prop. cbn [plan runFullDemo_calls flat_map].
  do 5 follows_some_step.
  match goal with
  | |- context [get ?newPost "id"] => destruct (get newPost "id") as [i|]
  end; cbn [or_TypeError].
  - exists i. repeat follows_step.
  - exists VUndef. apply follows_throw_bind.
Qed.

Lemma requests_after_banner w banner :
  requests banner = [] ->
  requests (trace (extend w banner)) = requests (trace w).
Proof. intros H. now rewrite trace_extend, requests_app, H, app_nil_r. Qed.

(** The requests of a driver are those of its [try] block. *)
Lemma driver_requests label banner (block : M unit) (driver : M value) w qs :
  requests banner = [] ->
  driver w
  = match block (extend w banner) with
    | (Return _, w1) => (Return VUndef, w1)
    | (Throw e, w1) => (Return VUndef, extend w1 [LogError label e])
    | (Pending, w1) => (Pending, w1)
    end ->
  follows_at qs block (extend w banner) ->
  exists p,
    prefix p qs
    /\ requests (trace (snd (driver w))) = (requests (trace w) ++ p)%list
    /\ (forall u w1, block (extend w banner) = (Return u, w1) -> p = qs).
Proof.
  intros Hquiet Hrun (p & Hp & Hreq & Hfull).
  rewrite (requests_after_banner _ _ Hquiet) in Hreq.
  exists p. split; [assumption|]. rewrite Hrun.
  destruct (block (extend w banner)) as [[u|e|] w1]; cbn [fst snd] in *.
  - split; [assumption|]. intros u' w1' _. now apply (Hfull u).
  - split; [|discriminate].
    now rewrite trace_extend, requests_app, app_nil_r.
  - split; [assumption|discriminate].
Qed.

Lemma plan_length calls : List.length (plan calls) <= List.length calls.
Proof.
  unfold plan. induction calls as [|wr calls IH]; [reflexivity|].
  cbn [flat_map]. rewrite length_app.
  assert (H : List.length (requests_of wr) <= 1)
    by (unfold requests_of; destruct (url_of wr); simpl; lia).
  cbn [List.length]. lia.
Qed.

Lemma plan_methods calls q :
  In q (plan calls) ->
  exists wr, In wr calls /\ method_of (snd q) = VStr (fst (table wr)).
Proof.
  unfold plan. induction calls as [|wr calls IH]; [intros []|].
  cbn [flat_map]. intros Hq. apply in_app_or in Hq.
  destruct Hq as [Hq|Hq].
  - exists wr. split; [now left|]. unfold requests_of in Hq.
    destruct (url_of wr); [|destruct Hq].
    destruct Hq as [<-|[]]. apply method_of_table.
  - destruct (IH Hq) as (wr' & Hin & Hm). exists wr'. split; [now right|assumption].
Qed.

(** X11.  The requests of [quickTest] are, in every run, the first ones
    of a fixed list of four, in its order: GET [/posts/1], POST [/posts],
    GET [/posts?userId=1], GET [/posts/1/comments].  No request is skipped,
    repeated or added, whatever the responses are; all four are made when
    the [try] block completes. *)
Theorem quickTest_requests_in_order w :
  plan quickTest_calls
  = [("https://jsonplaceholder.typicode.com/posts/1",
      VObj [("headers", VObj [("Content-Type", VStr "application/json")])]);
     ("https://jsonplaceholder.typicode.com/posts",
      VObj [("headers", VObj [("Content-Type", VStr "application/json")]);
            ("method", VStr "POST");
            ("body",
             JSON_stringify
               (VObj [("title", VStr "Quick Test Post");
                      ("body", VStr "Testing POST request");
                      ("userId", VNum 99)]))]);
     ("https://jsonplaceholder.typicode.com/posts?userId=1",
      VObj [("headers", VObj [("Content-Type", VStr "application/json")])]);
     ("https://jsonplaceholder.typicode.com/posts/1/comments",
      VObj [("headers", VObj [("Content-Type", VStr "application/json")])])]
  /\ exists p,
       prefix p (plan quickTest_calls)
       /\ requests (trace (snd (quickTest w))) = (requests (trace w) ++ p)%list
       /\ (forall u w1,
             quickTest_try (extend w quickTest_banner) = (Return u, w1) ->
             p = plan quickTest_calls).
Proof.
  split; [reflexivity|].
  apply (driver_requests "❌ Quick test failed:" quickTest_banner);
    [reflexivity|apply quickTest_run|apply quickTest_try_follows].
Qed.


(** X13.  [runFullDemo] makes at most fourteen requests and never one with
    method DELETE: its methods are GET, POST, PUT and PATCH only, so the
    demo leaves [deletePost] unexercised. *)
Theorem runFullDemo_never_deletes rate w :
  exists p,
    requests (trace (snd (runFullDemo rate w))) = (requests (trace w) ++ p)%list
    /\ List.length p <= 14
    /\ Forall (fun q => method_of (snd q) <> VStr "DELETE") p.
Proof.
  destruct (runFullDemo_try_follows rate (extend w runFullDemo_banner))
    as (i & Hfollows).
  destruct (driver_requests "❌ Demo failed:" runFullDemo_banner
              (runFullDemo_try rate) (runFullDemo rate) w _
              eq_refl (runFullDemo_run rate w) Hfollows)
    as (p & Hp & Hreq & _).
  exists p. split; [assumption|]. split.
  - apply prefix_length in Hp.
    assert (H := plan_length (runFullDemo_calls i)).
    cbn [runFullDemo_calls List.length] in H. lia.
  - apply Forall_forall. intros q Hq.
    destruct (plan_methods _ q (prefix_In _ _ _ Hp Hq)) as (wr & Hin & ->).
    simpl in Hin.
    repeat (destruct Hin as [<-|Hin]; [discriminate|]). destruct Hin.
Qed.

(* ================================================================== *)
(** * Runs that complete, and the error a driver reports *)
(* ================================================================== *)

Lemma logged_errors_app t1 t2 :
  logged_errors (t1 ++ t2) = (logged_errors t1 ++ logged_errors t2)%list.
Proof.
  induction t1 as [|ev t1 IH]; simpl; [reflexivity|].
  destruct ev; simpl; now rewrite IH.
Qed.

Lemma completes_ret {A} (a : A) : completes 0 (ret a).
Proof. intros w b _. exists []. now rewrite extend_nil. Qed.

Lemma completes_throw {A} e : completes 0 (@throw A e).
Proof. intros w b Hb. discriminate. Qed.

Lemma completes_console_log s : completes 0 (console_log s).
Proof. intros w b _. now exists [Log s]. Qed.

Lemma completes_or_TypeError {A} (o : option A) : completes 0 (or_TypeError o).
Proof. destruct o; [apply completes_ret|apply completes_throw]. Qed.

Lemma completes_prop v k : completes 0 (prop v k).
Proof. apply completes_or_TypeError. Qed.

Lemma completes_str v : completes 0 (str v).
Proof. apply completes_or_TypeError. Qed.

Lemma completes_bind {A B} a b (m : M A) (f : A -> M B) :
  completes a m -> (forall x, completes b (f x)) -> completes (a + b) (bind m f).
Proof.
  intros Hm Hf w y Hy.
  destruct (bind_Return_inv _ _ _ _ Hy) as (x & w1 & Hrun & Hfx).
  destruct (Hm w x) as (evs1 & Hs1 & He1 & Hn1); [now rewrite Hrun|].
  rewrite Hrun in Hs1. cbn [snd] in Hs1. subst w1.
  destruct (Hf x _ y Hfx) as (evs2 & Hs2 & He2 & Hn2).
  exists (evs1 ++ evs2)%list.
  rewrite (bind_returns _ _ _ _ _ Hrun), Hs2, extend_extend.
  rewrite logged_errors_app, requests_app, length_app, He1, He2.
  split; [reflexivity|]. split; [reflexivity|lia].
Qed.

Lemma completes_makeRequest url options :
  options <> VNull -> completes 1 (makeRequest url options).
Proof.
  intros Hnull w v. rewrite makeRequest_run by assumption. cbv zeta.
  destruct (net w (sent w)) as [r|e|]; try discriminate.
  destruct (negb (ok r)); try discriminate.
  destruct (status r =? 204)%Z; [|destruct (body r); try discriminate];
    intros _; eexists; (split; [reflexivity|]); split; reflexivity.
Qed.

Lemma completes_array_filter v k :
  completes 0 (array_filter v (fun todo => prop todo k)).
Proof.
  intros w a Ha. exists []. rewrite extend_nil.
  split; [|split; reflexivity].
  destruct v; try discriminate. cbn [array_filter] in *. unfold bind in *.
  assert (Hsame : forall xs w0,
             snd (filter_elems (fun todo => prop todo k) xs w0) = w0).
  { induction xs as [|x xs IH]; intros w0; [reflexivity|].
    cbn [filter_elems]. unfold bind at 1.
    destruct x; cbn [prop get or_TypeError ret throw]; try reflexivity;
      unfold bind at 1; specialize (IH w0);
      destruct (filter_elems _ xs w0) as [[ys| |] w1]; exact IH. }
  specialize (Hsame elems w).
  destruct (filter_elems _ elems w) as [[ys| |] w1]; try discriminate.
  exact Hsame.
Qed.

Create HintDb completes.

#[export] Hint Resolve completes_ret completes_throw completes_console_log
  completes_or_TypeError completes_prop completes_str completes_array_filter
  : completes.

Ltac completes0_step :=
  lazymatch goal with
  | |- completes 0 (bind _ _) => apply (completes_bind 0 0); [|intros ?]
  | |- completes 0 (match ?x with _ => _ end) => destruct x
  | |- completes 0 _ => solve [auto with completes]
  end.

Ltac completes0 := repeat completes0_step.

Lemma completes_first_opt x k : completes 0 (first_opt x k).
Proof. unfold first_opt. completes0. Qed.

#[export] Hint Resolve completes_first_opt : completes.

Lemma completes_call wr : completes 1 (call wr).
Proof.
  destruct wr; unfold_wrappers;
    repeat (apply (completes_bind 0 1); [solve [auto with completes]|intros ?]);
    (apply (completes_bind 1 0);
     [apply completes_makeRequest; discriminate|intros ?]);
    completes0.
Qed.

Ltac completes_walk :=
  repeat
    lazymatch goal with
    | |- completes _ (bind ?m _) =>
        first
          [ apply (completes_bind 0); [solve [completes0]|intros ?]
          | let wr := wrapper_of m in
            apply (completes_bind 1); [exact (completes_call wr)|intros ?] ]
    end;
  completes0.

Lemma completes_quickTest_try : completes 4 quickTest_try.
Proof. unfold quickTest_try. completes_walk. Qed.

Lemma completes_runFullDemo_try rate : completes 14 (runFullDemo_try rate).
Proof. unfold runFullDemo_try. completes_walk. Qed.

Lemma ends_with_console_log s : ends_with (Log s) (console_log s).
Proof. intros w a _. now exists (trace w). Qed.

Lemma ends_with_bind {A B} ev (m : M A) (f : A -> M B) :
  (forall x, ends_with ev (f x)) -> ends_with ev (bind m f).
Proof.
  intros Hf w y Hy.
  destruct (bind_Return_inv _ _ _ _ Hy) as (x & w1 & Hrun & Hfx).
  rewrite (bind_returns _ _ _ _ _ Hrun). exact (Hf x w1 y Hfx).
Qed.

Lemma ends_with_quickTest_try : ends_with quickTest_success quickTest_try.
Proof.
  unfold quickTest_try.
  repeat (apply ends_with_bind; intros ?). apply ends_with_console_log.
Qed.

Lemma ends_with_runFullDemo_try rate :
  ends_with runFullDemo_success (runFullDemo_try rate).
Proof.
  unfold runFullDemo_try.
  repeat (apply ends_with_bind; intros ?). apply ends_with_console_log.
Qed.

(** The two ways a driver finishes. *)
Lemma driver_finishes label banner (block : M unit) (driver : M value)
  n success w :
  requests banner = [] ->
  logged_errors banner = [] ->
  driver w
  = match block (extend w banner) with
    | (Return _, w1) => (Return VUndef, w1)
    | (Throw e, w1) => (Return VUndef, extend w1 [LogError label e])
    | (Pending, w1) => (Pending, w1)
    end ->
  uses n block -> completes n block -> ends_with success block ->
  fst (driver w) = Return VUndef ->
  exists evs,
    snd (driver w) = extend w evs
    /\ ((logged_errors evs = []
         /\ List.length (requests evs) = n
         /\ exists t, trace (snd (driver w)) = (t ++ [success])%list)
        \/ (exists e,
              logged_errors evs <> []
              /\ exists t,
                   trace (snd (driver w)) = (t ++ [LogError label e])%list)).
Proof.
  intros Hq He Hrun Huses Hcompl Hends. rewrite Hrun.
  destruct (Huses (extend w banner)) as (evs1 & Hs1 & _).
  destruct (block (extend w banner)) as [[u|e|] w1] eqn:Hb;
    cbn [fst snd] in *; try discriminate; intros _.
  - destruct (Hcompl (extend w banner) u) as (evs & Hs & Hne & Hn);
      [now rewrite Hb|].
    destruct (Hends (extend w banner) u) as (t & Ht); [now rewrite Hb|].
    rewrite Hb in Hs, Ht. cbn [snd] in Hs, Ht.
    exists (banner ++ evs)%list. rewrite <- extend_extend, <- Hs.
    split; [reflexivity|]. left.
    rewrite logged_errors_app, requests_app, length_app, He, Hq, Hne.
    split; [reflexivity|]. split; [exact Hn|].
    now exists t.
  - subst w1. exists (banner ++ evs1 ++ [LogError label e])%list.
    rewrite !extend_extend.
    split; [reflexivity|]. right. exists e. split.
    + rewrite !logged_errors_app. cbn [logged_errors].
      intros H. apply app_eq_nil in H. destruct H as [_ H].
      apply app_eq_nil in H. destruct H as [_ H]. discriminate.
    + exists (trace w ++ banner ++ evs1)%list.
      rewrite trace_extend, <- !app_assoc. reflexivity.
Qed.

(** X14.  A driver that finishes ends in one of two ways.  Either it
    logged no error at all: then it made every request of its sequence
    (fourteen for [runFullDemo], four for [quickTest]) and its last event
    is the success line.  Or an error was logged, and its last event is the
    failure summary.  The success line is never printed after an error. *)
Theorem drivers_success_is_clean rate w :
  (fst (runFullDemo rate w) = Return VUndef ->
   exists evs,
     snd (runFullDemo rate w) = extend w evs
     /\ ((logged_errors evs = []
          /\ List.length (requests evs) = 14
          /\ exists t,
               trace (snd (runFullDemo rate w))
               = (t ++ [runFullDemo_success])%list)
         \/ (exists e,
               logged_errors evs <> []
               /\ exists t,
                    trace (snd (runFullDemo rate w))
                    = (t ++ [LogError "❌ Demo failed:" e])%list)))
  /\ (fst (quickTest w) = Return VUndef ->
      exists evs,
        snd (quickTest w) = extend w evs
        /\ ((logged_errors evs = []
             /\ List.length (requests evs) = 4
             /\ exists t,
                  trace (snd (quickTest w)) = (t ++ [quickTest_success])%list)
            \/ (exists e,
                  logged_errors evs <> []
                  /\ exists t,
                       trace (snd (quickTest w))
                       = (t ++ [LogError "❌ Quick test failed:" e])%list))).
Proof.
  split.
  - apply (driver_finishes "❌ Demo failed:" runFullDemo_banner
             (runFullDemo_try rate));
      auto using runFullDemo_run, uses_runFullDemo_try,
        completes_runFullDemo_try, ends_with_runFullDemo_try.
  - apply (driver_finishes "❌ Quick test failed:" quickTest_banner
             quickTest_try);
      auto using quickTest_run, uses_quickTest_try, completes_quickTest_try,
        ends_with_quickTest_try.
Qed.

Lemma sent_requests w w' qs :
  requests (trace w') = (requests (trace w) ++ qs)%list ->
  sent w' = sent w + List.length qs.
Proof. unfold sent. intros ->. apply length_app. Qed.

Lemma reports_call wr : reports 0 (call wr).
Proof.
  intros w Hf Hsent. cbv zeta. rewrite Nat.add_0_r in *.
  assert (Hreq := call_requests wr w). apply sent_requests in Hreq.
  unfold requests_of in Hreq. destruct (url_of wr) as [u|] eqn:Hu.
  - destruct (call_rethrows wr u w Hu Hf) as (evs & Hrun).
    rewrite Hrun. split; [reflexivity|].
    cbn [snd]. rewrite trace_extend. exists (trace w ++ evs)%list.
    now rewrite app_assoc.
  - simpl in Hreq. lia.
Qed.

Lemma reports_bind_here {A B} k (m : M A) (f : A -> M B) :
  stops k m -> reports k m -> reports k (bind m f).
Proof.
  intros Hstops Hm w Hf. destruct (Hstops w Hf) as (Hnr & _).
  specialize (Hm w Hf). unfold bind.
  destruct (m w) as [[x|e|] w1]; cbn [fst snd] in *.
  - now destruct (Hnr x).
  - intros Hs. destruct (Hm Hs) as ([= ->] & Ht). now split.
  - intros Hs. destruct (Hm Hs) as [H _]. discriminate.
Qed.

Lemma reports_bind_uses0 {A B} k (m : M A) (f : A -> M B) :
  uses 0 m -> (forall x, reports k (f x)) -> reports k (bind m f).
Proof.
  intros Hm Hf w Hk. destruct (Hm w) as (evs & Hs & Hle & _).
  assert (Hsent : sent (extend w evs) = sent w) by (rewrite sent_extend; lia).
  unfold bind. destruct (m w) as [[x|e|] w1]; cbn [fst snd] in *; subst w1.
  - specialize (Hf x (extend w evs)).
    rewrite net_extend, Hsent in Hf. exact (Hf Hk).
  - intros Heq. lia.
  - intros Heq. lia.
Qed.

Lemma reports_bind_uses1 {A B} k (m : M A) (f : A -> M B) :
  uses 1 m -> (forall x, reports k (f x)) -> reports (S k) (bind m f).
Proof.
  intros Hm Hf w Hk. destruct (Hm w) as (evs & Hs & Hle & Hret & _).
  assert (Hsent : sent (extend w evs) = sent w + List.length (requests evs))
    by apply sent_extend.
  unfold bind. destruct (m w) as [[x|e|] w1]; cbn [fst snd] in *; subst w1.
  - specialize (Hret x eq_refl). specialize (Hf x (extend w evs)).
    rewrite net_extend, Hsent, Hret in Hf.
    replace (sent w + 1 + k) with (sent w + S k) in Hf by lia.
    replace (sent w + 1 + S k) with (sent w + S (S k)) in Hf by lia.
    exact (Hf Hk).
  - intros Heq. lia.
  - intros Heq. lia.
Qed.

Ltac reports_walk :=
  repeat
    lazymatch goal with
    | |- reports _ (bind ?m _) =>
        first
          [ apply reports_bind_uses0; [solve [uses0]|intros ?]
          | let wr := wrapper_of m in
            apply reports_bind_here;
            [solve [auto with wrappers]|exact (reports_call wr)]
          | apply reports_bind_uses1; [solve [auto with wrappers]|intros ?] ]
    end.

Lemma reports_quickTest_try k : k < 4 -> reports k quickTest_try.
Proof.
  intros Hk. unfold quickTest_try.
  do 4 (destruct k as [|k]; [reports_walk|]). lia.
Qed.

Lemma reports_runFullDemo_try rate k :
  k < 14 -> reports k (runFullDemo_try rate).
Proof.
  intros Hk. unfold runFullDemo_try.
  do 14 (destruct k as [|k]; [reports_walk|]). lia.
Qed.

Lemma driver_reports label banner (block : M unit) (driver : M value) w k :
  requests banner = [] ->
  driver w
  = match block (extend w banner) with
    | (Return _, w1) => (Return VUndef, w1)
    | (Throw e, w1) => (Return VUndef, extend w1 [LogError label e])
    | (Pending, w1) => (Pending, w1)
    end ->
  stops k block -> reports k block ->
  failing (net w (sent w + k)) = true ->
  sent (snd (driver w)) = sent w + S k ->
  let e := error_of (net w (sent w + k)) in
  fst (driver w) = Return VUndef
  /\ exists t,
       trace (snd (driver w))
       = (t ++ [LogError "API Request failed:" e; LogError label e])%list.
Proof.
  intros Hq Hrun Hstops Hreports Hk Hsent e.
  assert (Hs0 : sent (extend w banner) = sent w)
    by (rewrite sent_extend, Hq; simpl; lia).
  destruct (Hstops (extend w banner)) as (Hnr & _);
    [now rewrite net_extend, Hs0|].
  specialize (Hreports (extend w banner)).
  rewrite net_extend, Hs0 in Hreports. specialize (Hreports Hk).
  rewrite Hrun in *.
  destruct (block (extend w banner)) as [[u|e'|] w1]; cbn [fst snd] in *.
  - now destruct (Hnr u).
  - rewrite sent_extend in Hsent. simpl in Hsent. rewrite Nat.add_0_r in Hsent.
    destruct (Hreports Hsent) as ([= ->] & t & Ht).
    split; [reflexivity|]. exists t.
    rewrite trace_extend, Ht, <- app_assoc. reflexivity.
  - destruct (Hreports Hsent) as [H _]. discriminate.
Qed.

(** X15.  The failure summary of a driver names the error of the request
    that failed.  When the outcome of the [k]-th request is a failure and
    the driver makes that request, the driver returns, and its last two
    events are [makeRequest]'s log of the error of that outcome (the
    rejection reason, [HTTP error! status: n], or the parse error) and the
    summary with the same error. *)
Theorem drivers_report_the_error rate w k :
  failing (net w (sent w + k)) = true ->
  let e := error_of (net w (sent w + k)) in
  (k < 14 ->
   sent (snd (runFullDemo rate w)) = sent w + S k ->
   fst (runFullDemo rate w) = Return VUndef
   /\ exists t,
        trace (snd (runFullDemo rate w))
        = (t ++ [LogError "API Request failed:" e;
                 LogError "❌ Demo failed:" e])%list)
  /\ (k < 4 ->
      sent (snd (quickTest w)) = sent w + S k ->
      fst (quickTest w) = Return VUndef
      /\ exists t,
           trace (snd (quickTest w))
           = (t ++ [LogError "API Request failed:" e;
                    LogError "❌ Quick test failed:" e])%list).
Proof.
  intros Hk e. split; intros Hlt Hsent.
  - apply (driver_reports "❌ Demo failed:" runFullDemo_banner
             (runFullDemo_try rate));
      auto using runFullDemo_run, stops_runFullDemo_try,
        reports_runFullDemo_try.
  - apply (driver_reports "❌ Quick test failed:" quickTest_banner
             quickTest_try);
      auto using quickTest_run, stops_quickTest_try, reports_quickTest_try.
Qed.

(* ================================================================== *)
(** * What a wrapper call comes to *)
(* ================================================================== *)

Create HintDb steady.

Lemma steady_ret {A} (a : A) : steady (ret a).
Proof. intros w w'. reflexivity. Qed.

Lemma steady_throw {A} e : steady (@throw A e).
Proof. intros w w'. reflexivity. Qed.

Lemma steady_console_log s : steady (console_log s).
Proof. intros w w'. reflexivity. Qed.

Lemma steady_or_TypeError {A} (o : option A) : steady (or_TypeError o).
Proof. destruct o; [apply steady_ret|apply steady_throw]. Qed.

Lemma steady_prop v k : steady (prop v k).
Proof. apply steady_or_TypeError. Qed.

Lemma steady_str v : steady (str v).
Proof. apply steady_or_TypeError. Qed.

Lemma steady_bind {A B} (m : M A) (f : A -> M B) :
  steady m -> (forall x, steady (f x)) -> steady (bind m f).
Proof.
  intros Hm Hf w w'. specialize (Hm w w'). unfold bind.
  destruct (m w) as [[x|e|] w1], (m w') as [[x'|e'|] w1']; cbn [fst] in *;
    try discriminate; try congruence.
  injection Hm as ->. apply Hf.
Qed.

Lemma steady_filter_elems k xs :
  steady (filter_elems (fun todo => prop todo k) xs).
Proof.
  induction xs as [|x xs IH]; cbn [filter_elems].
  - apply steady_ret.
  - apply steady_bind; [apply steady_prop|]. intros r.
    apply steady_bind; [exact IH|]. intros ys. apply steady_ret.
Qed.

Lemma steady_array_filter v k :
  steady (array_filter v (fun todo => prop todo k)).
Proof.
  destruct v; cbn [array_filter]; try apply steady_throw.
  apply steady_bind; [apply steady_filter_elems|]. intros; apply steady_ret.
Qed.

#[export] Hint Resolve steady_ret steady_throw steady_console_log
  steady_or_TypeError steady_prop steady_str steady_array_filter : steady.

Ltac steady_step :=
  lazymatch goal with
  | |- steady (bind _ _) => apply steady_bind; [|intros ?]
  | |- steady (match ?x with _ => _ end) => destruct x
  | |- steady _ => solve [auto with steady]
  end.

(** Every wrapper is one log line, the call of [makeRequest], and a
    post-processing of its result that reads no state. *)
Lemma call_steady wr u :
  url_of wr = Some u ->
  exists s post,
    (forall w,
       call wr w
       = bind (makeRequest u (options_of wr)) post (extend w [Log s]))
    /\ (forall v, steady (post v)).
Proof.
  intros Hu.
  destruct wr; url_known Hu; eexists; eexists;
    (split;
     [ intros w; to_makeRequest; reflexivity
     | intros v; cbv beta; repeat steady_step ]).
Qed.

(** The outcome of [makeRequest] is decided by the outcome of its
    [fetch]. *)
Lemma makeRequest_outcome url options w w' :
  options <> VNull ->
  net w (sent w) = net w' (sent w') ->
  fst (makeRequest url options w) = fst (makeRequest url options w').
Proof.
  intros Hnull H. rewrite !makeRequest_run by assumption. cbv zeta.
  rewrite H.
  destruct (net w' (sent w')) as [r|e|];
    [destruct (negb (ok r));
       [|destruct (status r =? 204)%Z; [|destruct (body r)]]| |];
    reflexivity.
Qed.

Lemma call_outcome wr w w' :
  net w (sent w) = net w' (sent w') -> fst (call wr w) = fst (call wr w').
Proof.
  intros H. destruct (url_of wr) as [u|] eqn:Hu.
  - destruct (call_steady wr u Hu) as (s & post & Hrun & Hpost).
    rewrite !Hrun. unfold bind.
    assert (Hmr := makeRequest_outcome u (options_of wr)
                     (extend w [Log s]) (extend w' [Log s])
                     (options_of_not_null wr)).
    rewrite !next_outcome_after_log in Hmr. specialize (Hmr H).
    destruct (makeRequest u _ (extend w _)) as [[x|e|] w1],
             (makeRequest u _ (extend w' _)) as [[x'|e'|] w1'];
      cbn [fst] in *; try discriminate; try congruence.
    injection Hmr as ->. apply Hpost.
  - now rewrite !(call_no_url _ _ Hu).
Qed.

(** The result of a wrapper call is decided by the outcome of its
    request. *)
Lemma call_result wr w : fst (call wr w) = result_of wr (net w (sent w)).
Proof. unfold result_of. now apply call_outcome. Qed.

Lemma uses_call wr : uses 1 (call wr).
Proof. destruct wr; cbn [call]; auto with wrappers. Qed.

(** On a failing outcome of its request, a wrapper call fails with the
    error of [makeRequest]. *)
Lemma result_of_failing wr u o :
  url_of wr = Some u ->
  failing o = true ->
  result_of wr o = Throw (error_of o).
Proof.
  intros Hu Hf. unfold result_of.
  destruct (call_rethrows wr u {| net := fun _ => o; trace := [] |} Hu Hf)
    as (evs & ->).
  reflexivity.
Qed.

(** On an outcome that hangs, a wrapper call that makes its request stays
    pending; none returns. *)
Lemma result_of_hangs wr o :
  hangs o = true ->
  result_of wr o
  = match url_of wr with
    | Some _ => Pending
    | None => Throw TypeError
    end.
Proof.
  intros Hh. unfold result_of. destruct (url_of wr) as [u|] eqn:Hu.
  - destruct (call_steady wr u Hu) as (s & post & Hrun & _).
    rewrite Hrun. unfold bind.
    rewrite makeRequest_run by apply options_of_not_null. cbv zeta.
    rewrite next_outcome_after_log. cbn [net].
    destruct o as [r|e|]; cbn [hangs] in Hh; [|discriminate|reflexivity].
    destruct (ok r); cbn [andb negb] in *; [|discriminate].
    destruct (status r =? 204)%Z; cbn [andb negb] in *; [discriminate|].
    destruct (body r); try discriminate. reflexivity.
  - now rewrite (call_no_url _ _ Hu).
Qed.

(* ================================================================== *)
(** * Where a computation stays pending *)
(* ================================================================== *)

Lemma waits_uses0 {A} (m : M A) : uses 0 m -> waits m.
Proof.
  intros Hm w Hp. destruct (Hm w) as (evs & _ & Hle & _ & Hpend).
  destruct (Hpend Hp) as (i & Hi & _). lia.
Qed.

Lemma waits_bind {A B} n (m : M A) (f : A -> M B) :
  uses n m -> waits m -> (forall x, waits (f x)) -> waits (bind m f).
Proof.
  intros Hu Hm Hf w. specialize (Hm w).
  destruct (Hu w) as (evs & Hs & _). unfold bind.
  destruct (m w) as [[x|e|] w1]; cbn [fst snd] in *.
  - subst w1. intros Hp. destruct (Hf x _ Hp) as (j & Hj & Hh).
    rewrite net_extend, sent_extend in *.
    exists (List.length (requests evs) + j).
    split; [lia|]. now rewrite Nat.add_assoc.
  - discriminate.
  - intros _. now apply Hm.
Qed.

Lemma waits_bind_uses0 {A B} (m : M A) (f : A -> M B) :
  uses 0 m -> (forall x, waits (f x)) -> waits (bind m f).
Proof. intros Hm. apply (waits_bind 0); [assumption|now apply waits_uses0]. Qed.

Lemma waits_makeRequest url options :
  options <> VNull -> waits (makeRequest url options).
Proof.
  intros Hnull w. rewrite makeRequest_run by assumption. cbv zeta.
  destruct (net w (sent w)) as [r|e|] eqn:Hnet.
  - destruct (ok r) eqn:Hok; cbn [negb]; [|discriminate].
    destruct (status r =? 204)%Z eqn:Hst; [discriminate|].
    destruct (body r) eqn:Hb; try discriminate.
    intros _. exists 0. cbn [snd]. rewrite sent_extend, Nat.add_0_r, Hnet.
    split; [reflexivity|]. cbn [hangs]. now rewrite Hok, Hst, Hb.
  - discriminate.
  - intros _. exists 0. cbn [snd]. rewrite sent_extend, Nat.add_0_r, Hnet.
    split; reflexivity.
Qed.

Lemma waits_call wr : waits (call wr).
Proof.
  destruct wr; unfold_wrappers;
    repeat (apply waits_bind_uses0; [solve [auto with uses]|intros ?]);
    (apply (waits_bind 1);
     [ apply uses_makeRequest; discriminate
     | apply waits_makeRequest; discriminate
     | intros ?; apply waits_uses0; uses0 ]).
Qed.

Ltac waits_walk :=
  repeat
    lazymatch goal with
    | |- waits (bind ?m _) =>
        first
          [ apply waits_bind_uses0; [solve [uses0]|intros ?]
          | let wr := wrapper_of m in
            apply (waits_bind 1);
            [exact (uses_call wr)|exact (waits_call wr)|intros ?] ]
    end;
  apply waits_uses0; uses0.

Lemma waits_quickTest_try : waits quickTest_try.
Proof. unfold quickTest_try. waits_walk. Qed.

Lemma waits_runFullDemo_try rate : waits (runFullDemo_try rate).
Proof. unfold runFullDemo_try. waits_walk. Qed.

(* ================================================================== *)
(** * Where a sequence of wrapper calls is cut short *)
(* ================================================================== *)

Lemma in_run_start w banner : requests banner = [] -> in_run w 0 (extend w banner).
Proof.
  intros H. split; [reflexivity|]. rewrite sent_extend, H. reflexivity.
Qed.

Lemma cut_uses0 {A B} w0 k wr j (m : M A) (f : A -> M B) w :
  in_run w0 j w -> j <= k -> uses 0 m ->
  (forall x w', in_run w0 j w' -> cut_at w0 k wr (f x) w') ->
  cut_at w0 k wr (bind m f) w.
Proof.
  intros [Hnet Hsent] Hj Hm Hf. destruct (Hm w) as (evs & Hs & Hle & _).
  assert (Hsame : sent (extend w evs) = sent w) by (rewrite sent_extend; lia).
  unfold cut_at, bind. destruct (m w) as [[x|e|] w1]; cbn [fst snd] in *;
    subst w1.
  - apply Hf. split; [exact Hnet|lia].
  - split; [discriminate|]. split; [lia|]. intros; lia.
  - split; [discriminate|]. split; [lia|]. intros; lia.
Qed.

(** A property read keeps what it read. *)
Lemma cut_prop {B} w0 k wr j v key (f : value -> M B) w :
  in_run w0 j w -> j <= k ->
  (forall x, get v key = Some x -> cut_at w0 k wr (f x) w) ->
  cut_at w0 k wr (bind (prop v key) f) w.
Proof.
  intros [Hnet Hsent] Hj Hf. unfold prop.
  destruct (get v key) as [x|]; cbn [or_TypeError].
  - exact (Hf x eq_refl).
  - unfold cut_at. rewrite bind_throw. cbn [fst snd].
    split; [discriminate|]. split; [lia|]. intros; lia.
Qed.

Lemma cut_before {B} w0 k wr j wr1 (f : value -> M B) w :
  in_run w0 j w -> j < k ->
  (forall x w',
     result_of wr1 (net w0 (sent w0 + j)) = Return x ->
     in_run w0 (S j) w' -> cut_at w0 k wr (f x) w') ->
  cut_at w0 k wr (bind (call wr1) f) w.
Proof.
  intros [Hnet Hsent] Hj Hf. assert (Hres := call_result wr1 w).
  rewrite Hnet, Hsent in Hres.
  destruct (uses_call wr1 w) as (evs & Hs & Hle & Hret & _).
  assert (Hn := sent_extend w evs).
  unfold cut_at, bind. destruct (call wr1 w) as [[x|e|] w1];
    cbn [fst snd] in *; subst w1.
  - apply Hf; [now symmetry|]. split; [exact Hnet|].
    rewrite Hn, (Hret x eq_refl). lia.
  - split; [discriminate|]. split; [lia|]. intros; lia.
  - split; [discriminate|]. split; [lia|]. intros; lia.
Qed.

Lemma cut_here {B} w0 k wr (f : value -> M B) w :
  in_run w0 k w ->
  (forall v, result_of wr (net w0 (sent w0 + k)) <> Return v) ->
  cut_at w0 k wr (bind (call wr) f) w.
Proof.
  intros [Hnet Hsent] Hr. assert (Hres := call_result wr w).
  rewrite Hnet, Hsent in Hres.
  assert (Hreq := call_requests wr w). apply sent_requests in Hreq.
  unfold cut_at, bind. destruct (call wr w) as [[x|e|] w1];
    cbn [fst snd] in *.
  - now destruct (Hr x).
  - rewrite <- Hres. split; [discriminate|]. split; [lia|]. reflexivity.
  - rewrite <- Hres. split; [discriminate|]. split; [lia|]. reflexivity.
Qed.

(** The identifier of the created post, once [createPost] has returned. *)
Lemma created_id_known w0 newPost i :
  result_of
    (CreatePost (VObj [("title", VStr "My Test Post");
                       ("body", VStr "This is a test post created via API");
                       ("userId", VNum 1)]))
    (net w0 (sent w0 + 2)) = Return newPost ->
  get newPost "id" = Some i ->
  created_id w0 = i.
Proof. intros Hx Hi. unfold created_id. now rewrite Hx, Hi. Qed.

(** One step along a [try] block: a property read, a step without request,
    the wrapper call that does not return, or a wrapper call before it. *)
Ltac cut_step :=
  lazymatch goal with
  | Hin : in_run ?w0 ?j ?w |- cut_at ?w0 ?k ?wr (bind (prop ?v ?key) _) ?w =>
      apply (cut_prop w0 k wr j); [exact Hin|lia|intros ? ?]
  | Hin : in_run ?w0 ?j ?w |- cut_at ?w0 ?k ?wr (bind ?m _) ?w =>
      first
        [ apply (cut_uses0 w0 k wr j);
          [exact Hin|lia|solve [uses0]|clear Hin; intros ? ? Hin]
        | let wr1 := wrapper_of m in
          change m with (call wr1);
          tryif constr_eq j k then
            lazymatch wr with
            | context [created_id _] =>
                match goal with
                | Hx : result_of _ _ = Return ?p, Hi : get ?p "id" = Some _
                  |- _ =>
                    rewrite (created_id_known _ _ _ Hx Hi) in *;
                    apply (cut_here w0 k wr1); [exact Hin|assumption]
                end
            | _ => apply (cut_here w0 k wr1); [exact Hin|assumption]
            end
          else
            (apply (cut_before w0 k wr j wr1);
             [exact Hin|lia|clear Hin; intros ? ? ? Hin]) ]
  end.

Lemma cut_quickTest_try w0 k wr w :
  in_run w0 0 w ->
  nth_error quickTest_calls k = Some wr ->
  (forall v, result_of wr (net w0 (sent w0 + k)) <> Return v) ->
  cut_at w0 k wr quickTest_try w.
Proof.
  intros Hin Hnth Hr. unfold quickTest_try.
  do 4 (destruct k as [|k];
        [cbn [nth_error quickTest_calls] in Hnth; injection Hnth as <-;
         repeat cut_step|]).
  destruct k; discriminate Hnth.
Qed.

Lemma cut_runFullDemo_try rate w0 k wr w :
  in_run w0 0 w ->
  nth_error (runFullDemo_calls (created_id w0)) k = Some wr ->
  (forall v, result_of wr (net w0 (sent w0 + k)) <> Return v) ->
  cut_at w0 k wr (runFullDemo_try rate) w.
Proof.
  intros Hin Hnth Hr. unfold runFullDemo_try.
  do 14 (destruct k as [|k];
         [cbn [nth_error runFullDemo_calls] in Hnth; injection Hnth as <-;
          repeat cut_step|]).
  destruct k; discriminate Hnth.
Qed.

(* ================================================================== *)
(** * Properties of the demo drivers *)
(* ================================================================== *)

Lemma requests_of_length wr : List.length (requests_of wr) <= 1.
Proof. unfold requests_of. destruct (url_of wr); simpl; lia. Qed.

(** A driver whose [k]-th wrapper call fails. *)
Lemma driver_aborts label banner (block : M unit) (driver : M value)
  w k wr e :
  requests banner = [] ->
  driver w
  = match block (extend w banner) with
    | (Return _, w1) => (Return VUndef, w1)
    | (Throw e, w1) => (Return VUndef, extend w1 [LogError label e])
    | (Pending, w1) => (Pending, w1)
    end ->
  waits block ->
  cut_at w k wr block (extend w banner) ->
  result_of wr (net w (sent w + k)) = Throw e ->
  aborts label w k wr e (driver w).
Proof.
  intros Hq Hrun Hwaits (Hnr & Hle & Hend) He.
  rewrite He in Hend. cbn [ends_as] in Hend.
  assert (Hlen := requests_of_length wr).
  specialize (Hwaits (extend w banner)).
  rewrite net_extend, sent_extend, Hq in Hwaits.
  cbn [List.length] in Hwaits. rewrite Nat.add_0_r in Hwaits.
  unfold aborts. rewrite Hrun.
  destruct (block (extend w banner)) as [[u|e'|] w1]; cbn [fst snd] in *.
  - now destruct (Hnr u).
  - rewrite sent_extend. cbn [requests List.length]. rewrite Nat.add_0_r.
    split; [assumption|]. split; [|split; [|discriminate]].
    + intros v [= <-]. split; [reflexivity|]. now exists (trace w1), e'.
    + intros Hs. specialize (Hend Hs). injection Hend as ->.
      split; [reflexivity|]. now exists (trace w1).
  - split; [assumption|]. split; [discriminate|]. split.
    + intros Hs. specialize (Hend Hs). discriminate.
    + intros _. destruct (Hwaits eq_refl) as (j & Hj & Hh).
      exists j. split; [|split; assumption].
      destruct (Nat.eq_dec j k) as [->|Hne]; [|lia].
      specialize (Hend Hj). discriminate.
Qed.

(** A driver stays pending exactly when a request it made hangs. *)
Lemma driver_pending_iff label banner (block : M unit) (driver : M value)
  n calls w :
  requests banner = [] ->
  driver w
  = match block (extend w banner) with
    | (Return _, w1) => (Return VUndef, w1)
    | (Throw e, w1) => (Return VUndef, extend w1 [LogError label e])
    | (Pending, w1) => (Pending, w1)
    end ->
  uses n block -> waits block -> List.length calls = n ->
  (forall k wr,
     nth_error calls k = Some wr ->
     (forall v, result_of wr (net w (sent w + k)) <> Return v) ->
     cut_at w k wr block (extend w banner)) ->
  fst (driver w) = Pending
  <-> exists j,
        sent w + j < sent (snd (driver w))
        /\ hangs (net w (sent w + j)) = true.
Proof.
  intros Hq Hrun Huses Hwaits Hlen Hcut.
  assert (Hs0 : sent (extend w banner) = sent w)
    by (rewrite sent_extend, Hq; simpl; lia).
  assert (Hsent : sent (snd (driver w)) = sent (snd (block (extend w banner)))).
  { rewrite Hrun. destruct (block _) as [[u|e|] w1]; cbn [snd];
      try reflexivity.
    rewrite sent_extend. simpl. lia. }
  rewrite Hsent. split.
  - intros Hp.
    assert (Hb : fst (block (extend w banner)) = Pending).
    { rewrite Hrun in Hp. destruct (block _) as [[u|e|] w1];
        try discriminate. reflexivity. }
    destruct (Hwaits _ Hb) as (j & Hj & Hh).
    rewrite net_extend, Hs0 in *. exists j. split; [lia|assumption].
  - intros (j & Hj & Hh).
    destruct (Huses (extend w banner)) as (evs & Hs & Hle & _).
    assert (Hmade : sent (snd (block (extend w banner))) <= sent w + n)
      by (rewrite Hs, sent_extend; lia).
    destruct (nth_error calls j) as [wr|] eqn:Hnth;
      [|apply nth_error_None in Hnth; lia].
    assert (Hres := result_of_hangs wr _ Hh).
    destruct (Hcut j wr Hnth) as (_ & Hle' & Hend).
    { intros v. rewrite Hres. destruct (url_of wr); discriminate. }
    assert (H1 := requests_of_length wr).
    unfold requests_of in Hle'. rewrite Hres in Hend.
    destruct (url_of wr); cbn [List.length] in Hle'; [|lia].
    cbn [ends_as] in Hend. rewrite Hrun.
    destruct (block (extend w banner)) as [[u|e|] w1]; cbn [fst snd] in *;
      try reflexivity; (assert (Hb : _ = Pending) by (apply Hend; lia));
      discriminate.
Qed.

(** A driver returns [undefined] or stays pending. *)
Lemma driver_returns_or_pends label banner (block : M unit)
  (driver : M value) w :
  driver w
  = match block (extend w banner) with
    | (Return _, w1) => (Return VUndef, w1)
    | (Throw e, w1) => (Return VUndef, extend w1 [LogError label e])
    | (Pending, w1) => (Pending, w1)
    end ->
  fst (driver w) = Return VUndef \/ fst (driver w) = Pending.
Proof.
  intros ->. destruct (block _) as [[u|e|] w1]; cbn [fst]; auto.
Qed.

Lemma returns_iff_not_pending (x : outcome value) (made : nat -> Prop)
  (h : nat -> bool) :
  x = Return VUndef \/ x = Pending ->
  (x = Pending <-> exists j, made j /\ h j = true) ->
  x = Return VUndef <-> forall j, made j -> h j = false.
Proof.
  intros Hx Hp. split.
  - intros -> j Hj. destruct (h j) eqn:Hh; [|reflexivity].
    assert (H : @Return value VUndef = Pending) by (apply Hp; eauto).
    discriminate.
  - intros Hall. destruct Hx as [->| ->]; [reflexivity|].
    destruct Hp as [Hp _]. destruct (Hp eq_refl) as (j & Hj & Hh).
    rewrite (Hall j Hj) in Hh. discriminate.
Qed.

Lemma quickTest_pending_iff w :
  fst (quickTest w) = Pending
  <-> exists j,
        sent w + j < sent (snd (quickTest w))
        /\ hangs (net w (sent w + j)) = true.
Proof.
  apply (driver_pending_iff "❌ Quick test failed:" quickTest_banner
           quickTest_try quickTest 4 quickTest_calls);
    auto using quickTest_run, uses_quickTest_try, waits_quickTest_try.
  intros k wr Hnth Hr. apply cut_quickTest_try; auto using in_run_start.
Qed.

Lemma runFullDemo_pending_iff rate w :
  fst (runFullDemo rate w) = Pending
  <-> exists j,
        sent w + j < sent (snd (runFullDemo rate w))
        /\ hangs (net w (sent w + j)) = true.
Proof.
  apply (driver_pending_iff "❌ Demo failed:" runFullDemo_banner
           (runFullDemo_try rate) (runFullDemo rate) 14
           (runFullDemo_calls (created_id w)));
    auto using runFullDemo_run, uses_runFullDemo_try, waits_runFullDemo_try.
  intros k wr Hnth Hr. apply cut_runFullDemo_try; auto using in_run_start.
Qed.

(** C7.  A wrapper call that fails cuts a driver's sequence short.  The
    result of a wrapper call is decided by the outcome of its request.
    When the [k]-th wrapper call of a driver fails on the outcome of its
    request, whatever the failure is (a rejected [fetch], a status outside
    200..299, a body that does not parse, or a [TypeError] while the
    wrapper handles the answer or builds its URL), that call is the last
    one: the driver makes no request after it, and it ends by logging the
    failure summary with [console.error], with the error of that call when
    the call was reached.  [runFullDemo] has fourteen wrapper calls in its
    sequence, [quickTest] four.  Whatever is thrown in the [try] block, and
    wherever, the one event that follows is the failure summary. *)
Theorem drivers_abort_on_failure rate w :
  (forall wr w', fst (call wr w') = result_of wr (net w' (sent w')))
  /\ (forall k wr e,
        nth_error (runFullDemo_calls (created_id w)) k = Some wr ->
        result_of wr (net w (sent w + k)) = Throw e ->
        aborts "❌ Demo failed:" w k wr e (runFullDemo rate w))
  /\ (forall k wr e,
        nth_error quickTest_calls k = Some wr ->
        result_of wr (net w (sent w + k)) = Throw e ->
        aborts "❌ Quick test failed:" w k wr e (quickTest w))
  /\ (forall e w1,
        runFullDemo_try rate (extend w runFullDemo_banner) = (Throw e, w1) ->
        trace (snd (runFullDemo rate w))
        = (trace w1 ++ [LogError "❌ Demo failed:" e])%list)
  /\ (forall e w1,
        quickTest_try (extend w quickTest_banner) = (Throw e, w1) ->
        trace (snd (quickTest w))
        = (trace w1 ++ [LogError "❌ Quick test failed:" e])%list).
Proof.
  split; [exact call_result|]. split; [|split; [|split]].
  - intros k wr e Hnth He.
    apply (driver_aborts _ runFullDemo_banner (runFullDemo_try rate));
      auto using runFullDemo_run, waits_runFullDemo_try.
    apply cut_runFullDemo_try; auto using in_run_start.
    intros v. rewrite He. discriminate.
  - intros k wr e Hnth He.
    apply (driver_aborts _ quickTest_banner quickTest_try);
      auto using quickTest_run, waits_quickTest_try.
    apply cut_quickTest_try; auto using in_run_start.
    intros v. rewrite He. discriminate.
  - intros e w1 H.
    now rewrite (driver_catches _ _ _ _ (runFullDemo_run rate) w e w1 H).
  - intros e w1 H.
    now rewrite (driver_catches _ _ _ _ quickTest_run w e w1 H).
Qed.

(** C9, as amended.  The promise of [runFullDemo] and of [quickTest] never
    rejects: an error thrown in the [try] block is caught, logged with
    [console.error], and the driver returns [undefined].  The promise
    resolves exactly when every request the driver makes settles, the body
    included where it is read; it stays pending exactly when a request it
    made never settles. *)
Theorem drivers_never_reject rate w :
  (forall e, fst (runFullDemo rate w) <> Throw e)
  /\ (forall e, fst (quickTest w) <> Throw e)
  /\ (forall e w1,
        runFullDemo_try rate (extend w runFullDemo_banner) = (Throw e, w1) ->
        runFullDemo rate w
        = (Return VUndef, extend w1 [LogError "❌ Demo failed:" e]))
  /\ (forall e w1,
        quickTest_try (extend w quickTest_banner) = (Throw e, w1) ->
        quickTest w
        = (Return VUndef, extend w1 [LogError "❌ Quick test failed:" e]))
  /\ (fst (runFullDemo rate w) = Return VUndef
      <-> forall j,
            sent w + j < sent (snd (runFullDemo rate w)) ->
            hangs (net w (sent w + j)) = false)
  /\ (fst (quickTest w) = Return VUndef
      <-> forall j,
            sent w + j < sent (snd (quickTest w)) ->
            hangs (net w (sent w + j)) = false)
  /\ (fst (runFullDemo rate w) = Pending
      <-> exists j,
            sent w + j < sent (snd (runFullDemo rate w))
            /\ hangs (net w (sent w + j)) = true)
  /\ (fst (quickTest w) = Pending
      <-> exists j,
            sent w + j < sent (snd (quickTest w))
            /\ hangs (net w (sent w + j)) = true).
Proof.
  split; [|split; [|split; [|split; [|split; [|split; [|split]]]]]].
  - intros e. apply (driver_never_throws "❌ Demo failed:" runFullDemo_banner
                       (runFullDemo_try rate)), runFullDemo_run.
  - intros e. apply (driver_never_throws "❌ Quick test failed:"
                       quickTest_banner quickTest_try), quickTest_run.
  - intros e w1. apply driver_catches, runFullDemo_run.
  - intros e w1. apply driver_catches, quickTest_run.
  - apply (returns_iff_not_pending _
             (fun j => sent w + j < sent (snd (runFullDemo rate w)))
             (fun j => hangs (net w (sent w + j)))).
    + exact (driver_returns_or_pends _ _ _ _ w (runFullDemo_run rate w)).
    + apply runFullDemo_pending_iff.
  - apply (returns_iff_not_pending _
             (fun j => sent w + j < sent (snd (quickTest w)))
             (fun j => hangs (net w (sent w + j)))).
    + exact (driver_returns_or_pends _ _ _ _ w (quickTest_run w)).
    + apply quickTest_pending_iff.
  - apply runFullDemo_pending_iff.
  - apply quickTest_pending_iff.
Qed.

(** C9, as stated, fails: on a network where no request settles, neither
    promise resolves. *)
Lemma drivers_can_stay_pending :
  fst (quickTest silent_network) = Pending
  /\ fst (runFullDemo no_rate silent_network) = Pending
  /\ ~ (forall w, exists v, fst (quickTest w) = Return v).
Proof.
  split; [reflexivity|]. split; [reflexivity|].
  intros H. destruct (H silent_network) as [v Hv]. discriminate.
Qed.

(** [quickTest] when the first answer has the body [null]: [getPost] fails
    with a [TypeError] at [post.title], and nothing follows but the
    summary. *)
Example quickTest_null_body_run :
  quickTest null_post
  = (Return VUndef,
     extend null_post
       [Log ("⚡ Running Quick Test..." ++ nl);
        Log "📄 Fetching post 1...";
        Fetch "https://jsonplaceholder.typicode.com/posts/1"
          (VObj [("headers", VObj [("Content-Type", VStr "application/json")])]);
        ReadJson;
        LogError "❌ Quick test failed:" TypeError]).
Proof. reflexivity. Qed.

Lemma drivers_abort_on_failure_witness :
  let create :=
    CreatePost (VObj [("title", VStr "My Test Post");
                      ("body", VStr "This is a test post created via API");
                      ("userId", VNum 1)]) in
  (nth_error quickTest_calls 0 = Some (GetPost (VNum 1))
   /\ result_of (GetPost (VNum 1)) (net null_post (sent null_post + 0))
      = Throw TypeError)
  /\ aborts "❌ Quick test failed:" null_post 0 (GetPost (VNum 1)) TypeError
       (quickTest null_post)
  /\ (nth_error (runFullDemo_calls (created_id third_fails)) 2 = Some create
      /\ result_of create (net third_fails (sent third_fails + 2))
         = Throw (Error "HTTP error! status: 500"))
  /\ aborts "❌ Demo failed:" third_fails 2 create
       (Error "HTTP error! status: 500") (runFullDemo no_rate third_fails).
Proof.
  intros create.
  assert (H1 : nth_error quickTest_calls 0 = Some (GetPost (VNum 1)))
    by reflexivity.
  assert (H2 : result_of (GetPost (VNum 1)) (net null_post (sent null_post + 0))
               = Throw TypeError) by reflexivity.
  assert (H3 : nth_error (runFullDemo_calls (created_id third_fails)) 2
               = Some create) by reflexivity.
  assert (H4 : result_of create (net third_fails (sent third_fails + 2))
               = Throw (Error "HTTP error! status: 500")) by reflexivity.
  destruct (drivers_abort_on_failure no_rate null_post)
    as (_ & _ & Hquick & _).
  destruct (drivers_abort_on_failure no_rate third_fails)
    as (_ & Hfull & _).
  split; [auto|]. split; [exact (Hquick 0 _ _ H1 H2)|].
  split; [auto|]. exact (Hfull 2 _ _ H3 H4).
Defined.

Lemma drivers_never_reject_witness :
  (forall j,
     sent third_fails + j < sent (snd (quickTest third_fails)) ->
     hangs (net third_fails (sent third_fails + j)) = false)
  /\ fst (quickTest third_fails) = Return VUndef.
Proof.
  assert (H : forall j,
             sent third_fails + j < sent (snd (quickTest third_fails)) ->
             hangs (net third_fails (sent third_fails + j)) = false).
  { intros j Hj.
    change (sent (snd (quickTest third_fails))) with 3 in Hj.
    change (sent third_fails) with 0 in *.
    do 3 (destruct j as [|j]; [reflexivity|]). lia. }
  destruct (drivers_never_reject no_rate third_fails)
    as (_ & _ & _ & _ & _ & Hquick & _).
  split; [exact H|]. apply Hquick. exact H.
Defined.

(* ================================================================== *)
(** * Loading the script *)
(* ================================================================== *)

(** [interactiveDemo] only logs, and returns. *)
Lemma interactiveDemo_run w :
  exists evs,
    interactiveDemo w = (Return VUndef, extend w evs)
    /\ requests evs = []
    /\ logged_errors evs = [].
Proof.
  unfold interactiveDemo. repeat rewrite bind_console_log. cbn [ret].
  repeat rewrite extend_extend.
  eexists; split; [reflexivity|]. split; reflexivity.
Qed.

Lemma quickTest_extends w : exists evs, snd (quickTest w) = extend w evs.
Proof.
  rewrite quickTest_run.
  destruct (uses_quickTest_try (extend w quickTest_banner)) as (evs & Hs & _).
  destruct (quickTest_try _) as [[u|e|] w1]; cbn [snd] in *; subst w1;
    rewrite ?extend_extend; eauto.
Qed.

(** The third statement of [load], run as main module. *)
Lemma hints_after_quickTest w0 :
  (_ <- quickTest;;
   console_log (nl ++ "💡 To run full demo: node script.js --full");;
   console_log "💡 To run interactive: open this file in browser console") w0
  = match quickTest w0 with
    | (Return _, w1) =>
        (Return tt,
         extend w1
           [Log (nl ++ "💡 To run full demo: node script.js --full");
            Log "💡 To run interactive: open this file in browser console"])
    | (Throw e, w1) => (Throw e, w1)
    | (Pending, w1) => (Pending, w1)
    end.
Proof.
  unfold bind at 1. destruct (quickTest w0) as [[v|e|] w1]; try reflexivity.
  rewrite bind_console_log. unfold console_log. now rewrite extend_extend.
Qed.

(** The part of [load] that runs where [window] is defined. *)
Lemma load_window env w :
  module env <> NullModule ->
  exists evs,
    requests evs = []
    /\ (window_defined env = true ->
        exists evs',
          evs = Log "🌐 JSONPlaceholder API Script Loaded!" :: evs')
    /\ load env w
       = match module env with
         | NoModule => ret tt
         | NullModule | Module _ =>
             main <-
               match require env with
               | NoRequire => throw ReferenceError
               | NullishRequire => throw TypeError
               | Require main_is_module => ret main_is_module
               end;;
             if main then
               _ <- quickTest;;
               console_log (nl ++ "💡 To run full demo: node script.js --full");;
               console_log "💡 To run interactive: open this file in browser console"
             else ret tt
         end (extend w evs).
Proof.
  intros Hm. unfold load.
  replace (match module env with
           | NullModule => throw TypeError
           | _ => ret tt
           end) with (@ret unit tt) by (destruct (module env); congruence).
  rewrite bind_ret. destruct (window_defined env).
  - unfold bind at 1. rewrite bind_console_log. unfold bind at 1.
    destruct (interactiveDemo_run
                (extend w [Log "🌐 JSONPlaceholder API Script Loaded!"]))
      as (evs & -> & Hreq & _).
    cbn [ret]. rewrite extend_extend. eexists. split; [|split; [|reflexivity]].
    + cbn [app requests]. exact Hreq.
    + intros _. now exists evs.
  - exists []. rewrite extend_nil. split; [reflexivity|].
    split; [discriminate|reflexivity].
Qed.

(** X16.  What loading the script does, by environment.  It throws in two
    cases only, at its two unguarded reads: [TypeError] at once where
    [module] is [null], and, where [module] is defined and [require] is not
    declared or nullish, [ReferenceError] or [TypeError] at the last
    statement.  It never runs the full demo: the requests made are a prefix
    of the four of [quickTest], and there is none unless the script is the
    main module of a CommonJS host; there the load is pending, or the last
    two events are the two hints.  Where [window] is defined and [module]
    is not [null], the first thing logged is the banner of the
    catalogue. *)
Theorem load_runs_quickTest_only env w :
  (forall e, fst (load env w) = Throw e <-> load_error env = Some e)
  /\ (module env = NullModule -> load env w = (Throw TypeError, w))
  /\ (exists p,
        prefix p (plan quickTest_calls)
        /\ requests (trace (snd (load env w))) = (requests (trace w) ++ p)%list)
  /\ (is_main env = false ->
      requests (trace (snd (load env w))) = requests (trace w)
      /\ (load_error env = None -> fst (load env w) = Return tt))
  /\ (is_main env = true ->
      fst (load env w) = Pending
      \/ (fst (load env w) = Return tt
          /\ exists t,
               trace (snd (load env w))
               = (t ++ [Log (nl ++ "💡 To run full demo: node script.js --full");
                        Log "💡 To run interactive: open this file in browser console"])%list))
  /\ (window_defined env = true -> module env <> NullModule ->
      exists evs,
        trace (snd (load env w))
        = (trace w ++ Log "🌐 JSONPlaceholder API Script Loaded!" :: evs)%list).
Proof.
  destruct (module env) as [| |exports] eqn:Hmod.
  - (* no module: the last statement does nothing *)
    destruct (load_window env w) as (evs & Hreq & Hwin & Hrun);
      [congruence|].
    rewrite Hrun, Hmod. unfold load_error, is_main. rewrite Hmod.
    cbn [ret fst snd].
    assert (Hsame : requests (trace (extend w evs)) = requests (trace w))
      by (now rewrite trace_extend, requests_app, Hreq, app_nil_r).
    split; [split; discriminate|]. split; [discriminate|]. split.
    { exists []. split; [apply prefix_nil|]. now rewrite app_nil_r. }
    split; [auto|]. split; [discriminate|].
    intros Hw _. destruct (Hwin Hw) as (evs' & ->). now exists evs'.
  - (* module is null: the first statement throws *)
    assert (Hrun : load env w = (Throw TypeError, w))
      by (unfold load; rewrite Hmod; reflexivity).
    rewrite Hrun. unfold load_error, is_main. rewrite Hmod. cbn [fst snd].
    split; [split; congruence|]. split; [reflexivity|]. split.
    { exists []. split; [apply prefix_nil|]. now rewrite app_nil_r. }
    split; [split; [reflexivity|discriminate]|].
    split; [discriminate|]. intros _ H. now destruct H.
  - destruct (load_window env w) as (evs & Hreq & Hwin & Hrun);
      [congruence|].
    rewrite Hrun, Hmod. unfold load_error, is_main. rewrite Hmod.
    assert (Hsame : requests (trace (extend w evs)) = requests (trace w))
      by (now rewrite trace_extend, requests_app, Hreq, app_nil_r).
    assert (Hfirst : window_defined env = true ->
                     forall w1 evs1, w1 = extend (extend w evs) evs1 ->
                     exists evs2,
                       trace w1
                       = (trace w
                            ++ Log "🌐 JSONPlaceholder API Script Loaded!"
                            :: evs2)%list).
    { intros Hw w1 evs1 ->. destruct (Hwin Hw) as (evs' & ->).
      exists (evs' ++ evs1)%list.
      now rewrite !trace_extend, <- app_assoc. }
    destruct (require env) as [| |[|]];
      rewrite ?bind_throw, ?bind_ret; cbn [ret fst snd].
    + (* require is not declared *)
      split; [split; congruence|]. split; [discriminate|]. split.
      { exists []. split; [apply prefix_nil|]. now rewrite app_nil_r. }
      split; [split; [assumption|discriminate]|].
      split; [discriminate|].
      intros Hw _. apply (Hfirst Hw _ []). now rewrite extend_nil.
    + (* require is undefined or null *)
      split; [split; congruence|]. split; [discriminate|]. split.
      { exists []. split; [apply prefix_nil|]. now rewrite app_nil_r. }
      split; [split; [assumption|discriminate]|].
      split; [discriminate|].
      intros Hw _. apply (Hfirst Hw _ []). now rewrite extend_nil.
    + (* main module: quickTest, then the hints *)
      rewrite hints_after_quickTest.
      assert (Hnt := driver_never_throws "❌ Quick test failed:"
                       quickTest_banner quickTest_try quickTest quickTest_run
                       (extend w evs)).
      destruct (driver_requests "❌ Quick test failed:" quickTest_banner
                  quickTest_try quickTest (extend w evs) _ eq_refl
                  (quickTest_run (extend w evs))
                  (quickTest_try_follows _)) as (p & Hp & Hq & _).
      destruct (quickTest_extends (extend w evs)) as (evs1 & Hext).
      destruct (quickTest (extend w evs)) as [[v|e|] w1]; cbn [fst snd] in *.
      * split; [split; discriminate|]. split; [discriminate|]. split.
        { exists p. split; [assumption|].
          rewrite trace_extend, requests_app, Hq, Hsame. cbn [requests].
          now rewrite app_nil_r. }
        split; [discriminate|]. split.
        { intros _. right. split; [reflexivity|]. now exists (trace w1). }
        intros Hw _. subst w1.
        eapply (Hfirst Hw). now rewrite extend_extend.
      * now destruct (Hnt e).
      * split; [split; discriminate|]. split; [discriminate|]. split.
        { exists p. split; [assumption|]. now rewrite Hq, Hsame. }
        split; [discriminate|]. split; [intros _; now left|].
        intros Hw _. now apply (Hfirst Hw _ evs1).
    + (* required by another module *)
      split; [split; discriminate|]. split; [discriminate|]. split.
      { exists []. split; [apply prefix_nil|]. now rewrite app_nil_r. }
      split; [auto|]. split; [discriminate|].
      intros Hw _. apply (Hfirst Hw _ []). now rewrite extend_nil.
Qed.

(** In a host that defines [module] and [window] but not [require], the
    load prints the catalogue and ends in a [ReferenceError]. *)
Example load_without_require :
  let env :=
    {| module := Module true; window_defined := true; require := NoRequire |} in
  fst (load env silent_network) = Throw ReferenceError
  /\ requests (trace (snd (load env silent_network))) = []
  /\ nth_error (trace (snd (load env silent_network))) 0
     = Some (Log "🌐 JSONPlaceholder API Script Loaded!").
Proof. repeat split. Qed.

(** Where [module] is [null] the first statement throws, in a browser
    too. *)
Example load_null_module :
  load {| module := NullModule; window_defined := true; require := NoRequire |}
    silent_network
  = (Throw TypeError, silent_network).
Proof. reflexivity. Qed.

(* ================================================================== *)
(** * Further sample runs *)
(* ================================================================== *)

Lemma makeRequest_returns_iff_witness :
  let w := world_of [Responds (ok_200 (VArr [VNum 1; VNum 2]))] in
  VUndef <> VNull
  /\ fst (makeRequest "https://jsonplaceholder.typicode.com/posts" VUndef w)
     = Return (VArr [VNum 1; VNum 2]).
Proof.
  intros w. assert (H : VUndef <> VNull) by discriminate.
  split; [exact H|].
  apply (makeRequest_returns_iff _ VUndef w (VArr [VNum 1; VNum 2]) H).
  exists (ok_200 (VArr [VNum 1; VNum 2])).
  split; [reflexivity|]. split; [reflexivity|].
  right. split; [discriminate|reflexivity].
Defined.

Lemma makeRequest_passes_options_witness :
  let ps := [("method", VStr "POST");
             ("headers", VObj [("Accept", VStr "text/plain")])] in
  distinct_keys ps = true
  /\ get (request_init (VObj ps)) "method" = Some (VStr "POST")
  /\ get (request_init (VObj ps)) "headers"
     = Some (VObj [("Accept", VStr "text/plain")]).
Proof.
  intros ps. assert (H : distinct_keys ps = true) by reflexivity.
  destruct (makeRequest_passes_options "https://jsonplaceholder.typicode.com/posts"
              ps always_500 H) as (_ & Hkeep & _).
  split; [exact H|]. split; apply Hkeep; reflexivity.
Defined.

Lemma wrappers_return_response_witness :
  let user := VObj [("name", VStr "Ann"); ("email", VStr "ann@example.org")] in
  let w := world_of [Responds (ok_200 user)] in
  (GetUser (VNum 1) <> GetCompletedTodos
   /\ fst (call (GetUser (VNum 1)) w) = Return user)
  /\ exists r,
       net w (sent w) = Responds r
       /\ ok r = true
       /\ ((status r = 204%Z /\ user = success_marker)
           \/ (status r <> 204%Z /\ body r = Parses user)).
Proof.
  intros user w.
  assert (H1 : GetUser (VNum 1) <> GetCompletedTodos) by discriminate.
  assert (H2 : fst (call (GetUser (VNum 1)) w) = Return user) by reflexivity.
  split; [auto|].
  exact (wrappers_return_response (GetUser (VNum 1)) w user H1 H2).
Defined.

Lemma wrappers_rethrow_witness :
  let w := world_of [Responds not_found] in
  let u := "https://jsonplaceholder.typicode.com/posts/3" in
  (url_of (DeletePost (VNum 3)) = Some u
   /\ failing (net w (sent w)) = true)
  /\ fst (deletePost (VNum 3) w) = Throw (Error "HTTP error! status: 404").
Proof.
  intros w u.
  assert (H1 : url_of (DeletePost (VNum 3)) = Some u) by reflexivity.
  assert (H2 : failing (net w (sent w)) = true) by reflexivity.
  split; [auto|].
  exact (proj1 (wrappers_rethrow (DeletePost (VNum 3)) u w H1 H2)).
Defined.

Lemma wrappers_on_204_witness :
  let w := world_of [Responds no_content] in
  let u := "https://jsonplaceholder.typicode.com/todos" in
  (url_of GetCompletedTodos = Some u
   /\ net w (sent w) = Responds no_content
   /\ status no_content = 204%Z)
  /\ fst (getCompletedTodos w) = Throw TypeError
  /\ fst (getAllTodos w) = Return success_marker.
Proof.
  intros w u.
  assert (H1 : url_of GetCompletedTodos = Some u) by reflexivity.
  assert (H1' : url_of GetAllTodos = Some u) by reflexivity.
  assert (H2 : net w (sent w) = Responds no_content) by reflexivity.
  assert (H3 : status no_content = 204%Z) by reflexivity.
  split; [auto|]. split.
  - exact (wrappers_on_204 GetCompletedTodos u w no_content H1 H2 H3).
  - exact (wrappers_on_204 GetAllTodos u w no_content H1' H2 H3).
Defined.

Lemma wrappers_on_null_body_witness :
  let w := world_of [Responds (ok_200 VNull)] in
  let u := "https://jsonplaceholder.typicode.com/users" in
  (url_of GetAllUsers = Some u
   /\ net w (sent w) = Responds (ok_200 VNull)
   /\ ok (ok_200 VNull) = true
   /\ status (ok_200 VNull) <> 204%Z
   /\ body (ok_200 VNull) = Parses VNull)
  /\ fst (getAllUsers w) = Throw TypeError.
Proof.
  intros w u.
  assert (H1 : url_of GetAllUsers = Some u) by reflexivity.
  assert (H2 : net w (sent w) = Responds (ok_200 VNull)) by reflexivity.
  assert (H3 : ok (ok_200 VNull) = true) by reflexivity.
  assert (H4 : status (ok_200 VNull) <> 204%Z) by discriminate.
  assert (H5 : body (ok_200 VNull) = Parses VNull) by reflexivity.
  split; [auto|].
  exact (proj1 (wrappers_on_null_body GetAllUsers u w _ H1 H2 H3 H4 H5)).
Defined.

Lemma getCompletedTodos_result_witness :
  let v := VArr [VObj [("completed", VBool true)]; VNull] in
  let w := world_of [Responds (ok_200 v)] in
  (net w (sent w) = Responds (ok_200 v)
   /\ ok (ok_200 v) = true
   /\ status (ok_200 v) <> 204%Z
   /\ body (ok_200 v) = Parses v)
  /\ fst (getCompletedTodos w) = Throw TypeError.
Proof.
  intros v w.
  assert (H1 : net w (sent w) = Responds (ok_200 v)) by reflexivity.
  assert (H2 : ok (ok_200 v) = true) by reflexivity.
  assert (H3 : status (ok_200 v) <> 204%Z) by discriminate.
  assert (H4 : body (ok_200 v) = Parses v) by reflexivity.
  split; [auto|].
  exact (getCompletedTodos_result w (ok_200 v) v H1 H2 H3 H4).
Defined.

Lemma updatePost_payload_witness :
  let ps := [("title", VStr "t"); ("userId", VNum 1)] in
  distinct_keys ps = true
  /\ lookup "id" (spread [("id", VNum 5)] (VObj ps)) = Some (VNum 5)
  /\ lookup "title" (spread [("id", VNum 5)] (VObj ps)) = Some (VStr "t").
Proof.
  intros ps. assert (H : distinct_keys ps = true) by reflexivity.
  destruct (updatePost_payload (VNum 5) ps always_500 H)
    as (_ & Hkeep & Hid & _).
  split; [exact H|]. split; [apply Hid|apply Hkeep]; reflexivity.
Defined.

Lemma drivers_report_the_error_witness :
  failing (net third_fails (sent third_fails + 2)) = true
  /\ fst (quickTest third_fails) = Return VUndef
  /\ exists t,
       trace (snd (quickTest third_fails))
       = (t ++ [LogError "API Request failed:" (Error "HTTP error! status: 500");
                LogError "❌ Quick test failed:"
                  (Error "HTTP error! status: 500")])%list.
Proof.
  assert (H : failing (net third_fails (sent third_fails + 2)) = true)
    by reflexivity.
  split; [exact H|].
  apply (proj2 (drivers_report_the_error no_rate third_fails 2 H));
    [lia|reflexivity].
Defined.
